(** * gophertunnel: the Minecraft (Bedrock Edition) connection of [minecraft/conn.go]

    A shallow embedding of [Conn] and of its methods: the buffered writer
    ([Write], [WritePacket], [Flush]), the readers ([Read], [ReadPacket]), the
    login sequence driven by [handleIncoming], the resource pack download, the
    encryption handshake of [enableEncryption], [SetReadDeadline] and [Close].

    Conventions.  Go integers are [Z]; the arithmetic of [int64] is written
    with its wrap-around ([wrap64]).  A byte slice is a [list byte].  A method
    of [*Conn] is a computation of the monad [M]: it takes the connection and
    either returns a value with the updated connection, blocks, or panics.
    A Go [error] is an [option error], [None] being [nil].  Where a [select]
    has several cases, the case the runtime picks is an argument. *)

From Stdlib Require Import ZArith NArith List String Ascii Bool Lia PeanoNat.
From Stdlib.Strings Require Import Byte.
Import ListNotations.

Local Open Scope Z_scope.

Definition bytes := list byte.

Definition byte_to_Z (b : byte) : Z := Z.of_N (Byte.to_N b).

(** The conversion [byte(n)] of Go: the low eight bits. *)
Definition byte_of_Z (n : Z) : byte :=
  match Byte.of_N (Z.to_N (n mod 256)) with
  | Some b => b
  | None => Byte.x00
  end.

(** ** Go's [encoding/base64] *)

Module Base64.

Definition encodeStd : string :=
  "ABCDEFGHIJKLMNOPQRSTUVWXYZabcdefghijklmnopqrstuvwxyz0123456789+/".

Definition encodeURL : string :=
  "ABCDEFGHIJKLMNOPQRSTUVWXYZabcdefghijklmnopqrstuvwxyz0123456789-_".

(** An [Encoding]: its 64 character alphabet and its padding character,
    [None] for [NoPadding]. *)
Record Encoding := {
  encode : string;
  padChar : option ascii
}.

Definition StdEncoding : Encoding :=
  {| encode := encodeStd; padChar := Some "="%char |}.
Definition RawStdEncoding : Encoding :=
  {| encode := encodeStd; padChar := None |}.
Definition RawURLEncoding : Encoding :=
  {| encode := encodeURL; padChar := None |}.

Definition digit (enc : Encoding) (v : Z) : ascii :=
  match String.get (Z.to_nat (Z.land v 63)) (encode enc) with
  | Some a => a
  | None => "000"%char
  end.

Definition padding (enc : Encoding) (n : nat) : string :=
  match padChar enc with
  | Some p => string_of_list_ascii (repeat p n)
  | None => EmptyString
  end.

(** [EncodeToString]: three bytes give four digits; a remainder of one
    byte gives two digits, of two bytes three, then the padding. *)
Fixpoint EncodeToString (enc : Encoding) (src : bytes) : string :=
  match src with
  | [] => EmptyString
  | [b0] =>
      let val := Z.shiftl (byte_to_Z b0) 16 in
      String (digit enc (Z.shiftr val 18))
        (String (digit enc (Z.shiftr val 12)) (padding enc 2))
  | [b0; b1] =>
      let val := Z.lor (Z.shiftl (byte_to_Z b0) 16) (Z.shiftl (byte_to_Z b1) 8) in
      String (digit enc (Z.shiftr val 18))
        (String (digit enc (Z.shiftr val 12))
           (String (digit enc (Z.shiftr val 6)) (padding enc 1)))
  | b0 :: b1 :: b2 :: rest =>
      let val := Z.lor (Z.lor (Z.shiftl (byte_to_Z b0) 16)
                              (Z.shiftl (byte_to_Z b1) 8)) (byte_to_Z b2) in
      String (digit enc (Z.shiftr val 18))
        (String (digit enc (Z.shiftr val 12))
           (String (digit enc (Z.shiftr val 6))
              (String (digit enc val) (EncodeToString enc rest))))
  end.

End Base64.

(** ** The method [Bytes] of [big.Int] in Go's [math/big] *)

Module Big.

(** The base 256 digits of [n], least significant first, with no zero
    digit at the top. *)
Fixpoint digits (fuel : nat) (n : Z) : bytes :=
  match fuel with
  | O => []
  | S fuel' =>
      if n <=? 0 then [] else byte_of_Z n :: digits fuel' (n / 256)
  end.

(** [x.Bytes()]: the absolute value of [x] as a big-endian byte slice. *)
Definition Bytes (x : Z) : bytes :=
  rev (digits (S (Z.to_nat (Z.log2 (Z.abs x)))) (Z.abs x)).

(** The number a big-endian byte slice stands for ([SetBytes]). *)
Definition of_bytes (b : bytes) : Z :=
  fold_left (fun acc d => acc * 256 + byte_to_Z d) b 0.

End Big.

(** ** Go's [time] *)

Module Time.

(** An instant, in nanoseconds since January 1, year 1, 00:00 UTC: the
    zero value [time.Time{}] is that instant. *)
Definition Time := Z.
Definition zero : Time := 0.

(** January 1, 1970 UTC, where the clock of a running program starts at
    the earliest. *)
Definition unixEpoch : Time := 62135596800 * 1000000000.

Definition Duration := Z.
Definition Hour : Duration := 3600 * 1000000000.
Definition maxDuration : Duration := 2 ^ 63 - 1.
Definition minDuration : Duration := - 2 ^ 63.

Definition Before (t u : Time) : bool := t <? u.

(** [t.Sub(u)] saturates at the extreme durations. *)
Definition Sub (t u : Time) : Duration :=
  Z.max minDuration (Z.min maxDuration (t - u)).

(** A receive-only channel of [time.Time]: [Nil] is the nil channel, on
    which a receive blocks forever; [FiresAt t] is the channel of
    [time.After], which holds one value from [t] on; [Drained] is such a
    channel after its value was received. *)
Inductive Chan :=
| Nil
| FiresAt (t : Time)
| Drained.

(** [time.After(d)] called at the instant [now]. *)
Definition After (now : Time) (d : Duration) : Chan := FiresAt (now + d).

Definition ready (now : Time) (ch : Chan) : bool :=
  match ch with
  | FiresAt t => t <=? now
  | _ => false
  end.

End Time.

(** ** Errors *)

(** A Go [error]: [io.EOF], an error of a package outside the connection, or
    the result of [fmt.Errorf] with its format and arguments. *)
Inductive error :=
| EOF
| ErrClosedNetConn
| ErrForeign (msg : string)
| Errorf (format : string) (args : list value)
with value :=
| VInt (z : Z)
| VStr (s : string)
| VErr (e : error).

Inductive result (A : Type) :=
| Ok (a : A)
| Err (e : error).
Arguments Ok {A} a.
Arguments Err {A} e.

(** ** [crypto/elliptic] and [crypto/ecdsa] *)

Module elliptic.
(** The one method of the [Curve] interface the connection calls:
    [ScalarMult(x, y, k)], the point [k * (x, y)]. *)
Record Curve := {
  ScalarMult : Z -> Z -> bytes -> Z * Z
}.
End elliptic.

Module ecdsa.
Record PublicKey := {
  Curve : elliptic.Curve;
  X : Z;
  Y : Z
}.
(** [Public] is the embedded [PublicKey] of the Go struct. *)
Record PrivateKey := {
  Public : PublicKey;
  D : Z
}.
End ecdsa.

(** ** Package [jwt]: the header of a token *)

Module jwt.
Record Header := {
  Algorithm : string;
  X5U : string
}.
End jwt.

(** ** Package [resource]: a resource pack *)

Module resource.

Record Pack := {
  UUID : string;
  Version : string;
  content : bytes;
  HasScripts : bool;
  HasBehaviours : bool
}.

Definition Len (pack : Pack) : Z := Z.of_nat (List.length (content pack)).

(** Modelled from the spec: [Pack.ReadAt] is not in [conn.go].  The spec
    gives a pack a "random-access read_at(dst, offset) returning bytes-read
    and a possible end-of-stream signal": the read copies the bytes of the
    content from [off] on into [dst], as many as fit, and signals the end
    of the stream when fewer than [len(dst)] were there to copy.  The
    result is the new contents of [dst], the count [n] and the error. *)
Definition ReadAt (pack : Pack) (dst : bytes) (off : Z)
  : bytes * Z * option error :=
  let avail := skipn (Z.to_nat off) (content pack) in
  let got := firstn (List.length dst) avail in
  let n := List.length got in
  (got ++ skipn n dst, Z.of_nat n,
   if (n <? List.length dst)%nat then Some EOF else None).

End resource.

(** ** Package [packet]: the packets of the login sequence *)

Module packet.

Record ResourcePack := {
  UUID : string;
  Version : string;
  Size : Z;
  HasScripts : bool
}.

Inductive Packet :=
| Login (ClientProtocol : Z) (ConnectionRequest : bytes)
| PlayStatus (Status : Z)
| ServerToClientHandshake (JWT : bytes)
| ClientToServerHandshake
| Disconnect (Message : string)
| ResourcePacksInfo (TexturePackRequired HasScripts : bool)
    (BehaviourPacks TexturePacks : list ResourcePack)
| ResourcePackStack (TexturePackRequired : bool)
    (BehaviourPacks TexturePacks : list ResourcePack)
| ResourcePackClientResponse (Response : Z) (PacksToDownload : list string)
| ResourcePackDataInfo (UUID Version : string)
    (Size DataChunkSize ChunkCount : Z) (Hash : bytes)
| ResourcePackChunkData (UUID : string) (ChunkIndex DataOffset : Z)
    (Data : bytes)
| ResourcePackChunkRequest (UUID : string) (ChunkIndex : Z)
| Unknown (PacketID : Z) (Payload : bytes).

(** The codec halves.  Modelled from the spec: [Encoder] and [Decoder] are
    not in [conn.go].  A codec half is in plaintext mode ([key = None]) or
    in encrypted mode with its key and its batch counter; "Encryption
    enable" is an "idempotent-once operation" that "transitions the codec
    from plaintext to encrypted mode, initializing ... counters to zero.
    Once enabled, cannot be disabled." *)
Record Codec := {
  key : option bytes;
  counter : Z
}.

Definition NewCodec : Codec := {| key := None; counter := 0 |}.

Definition EnableEncryption (keyBytes : bytes) (cd : Codec) : Codec :=
  match key cd with
  | Some _ => cd
  | None => {| key := Some keyBytes; counter := 0 |}
  end.

End packet.

(** ** The transport, a [net.Conn] *)

(** One batch as the encoder hands it to the transport: its frames, and the
    key and counter it was encrypted under, [None] for a plaintext batch. *)
Record Batch := {
  frames : list bytes;
  sealed : option (bytes * Z)
}.

(** The transport records what was written to it and how often it was
    closed.  A [net.Conn] refuses a write once it is closed, and a second
    [Close] returns an error. *)
Record NetConn := {
  written : list Batch;
  closed : bool;
  closeCalls : nat;
  localAddr : string;
  remoteAddr : string
}.

Definition NetConn_Write (b : Batch) (t : NetConn) : option error * NetConn :=
  if closed t then (Some ErrClosedNetConn, t)
  else (None, {| written := written t ++ [b]; closed := false;
                 closeCalls := closeCalls t;
                 localAddr := localAddr t; remoteAddr := remoteAddr t |}).

Definition NetConn_Close (t : NetConn) : option error * NetConn :=
  (if closed t then Some ErrClosedNetConn else None,
   {| written := written t; closed := true; closeCalls := S (closeCalls t);
      localAddr := localAddr t; remoteAddr := remoteAddr t |}).

(** Modelled from the spec: [Encoder.Encode] is not in [conn.go].  "Input: an
    ordered list of frames ... Output: one batch written to the transport",
    encrypted when encryption is enabled, and the "send counter increments
    once per encrypted batch".  The compression and the cipher are left out:
    a batch is recorded with the key and counter it is sealed under. *)
Definition Encode (fr : list bytes) (enc : packet.Codec) (t : NetConn)
  : option error * packet.Codec * NetConn :=
  let b := {| frames := fr;
              sealed := match packet.key enc with
                        | Some k => Some (k, packet.counter enc)
                        | None => None
                        end |} in
  match NetConn_Write b t with
  | (Some e, t') => (Some e, enc, t')
  | (None, t') =>
      (None,
       match packet.key enc with
       | Some k => {| packet.key := Some k;
                      packet.counter := packet.counter enc + 1 |}
       | None => enc
       end, t')
  end.

(** ** The packages the connection is built on *)

(** What [conn.go] uses of the packages [protocol], [packet], [login] and
    [jwt] and of the Go library, whose sources are not part of the file under
    study: the numeric constants, the packet codec, the verification of the
    login request, the signing of a token and the hash. *)
Record Packages := {
  (* package protocol *)
  CurrentProtocol : Z;
  (* package packet: the packet IDs *)
  IDLogin : Z;
  IDPlayStatus : Z;
  IDServerToClientHandshake : Z;
  IDClientToServerHandshake : Z;
  IDDisconnect : Z;
  IDResourcePacksInfo : Z;
  IDResourcePackStack : Z;
  IDResourcePackClientResponse : Z;
  IDResourcePackDataInfo : Z;
  IDResourcePackChunkData : Z;
  IDResourcePackChunkRequest : Z;
  (* package packet: the statuses of a PlayStatus packet *)
  PlayStatusLoginSuccess : Z;
  PlayStatusLoginFailedClient : Z;
  PlayStatusLoginFailedServer : Z;
  PlayStatusPlayerSpawn : Z;
  PlayStatusLoginFailedInvalidTenant : Z;
  PlayStatusLoginFailedVanillaEdu : Z;
  PlayStatusLoginFailedEduVanilla : Z;
  PlayStatusLoginFailedServerFull : Z;
  (* package packet: the responses of a ResourcePackClientResponse packet *)
  PackResponseRefused : Z;
  PackResponseSendPacks : Z;
  PackResponseAllPacksDownloaded : Z;
  PackResponseCompleted : Z;
  (* package packet: Header.Write and Header.Read, the pool, Marshal and
     Unmarshal; Header.Read returns the ID and the rest of the buffer *)
  Header_Write : Z -> result bytes;
  Header_Read : bytes -> result (Z * bytes);
  pool : Z -> option packet.Packet;
  Marshal : packet.Packet -> bytes;
  Unmarshal : packet.Packet -> bytes -> packet.Packet * option error;
  (* package login *)
  IdentityData : Type;
  ClientData : Type;
  Verify : bytes -> result (ecdsa.PublicKey * bool);
  Decode : bytes -> result (IdentityData * ClientData);
  IdentityData_Validate : IdentityData -> option error;
  ClientData_Validate : ClientData -> option error;
  (* package jwt, crypto/x509, crypto/sha256 *)
  jwt_New : jwt.Header -> list (string * string) -> ecdsa.PrivateKey ->
            result bytes;
  MarshalPKIXPublicKey : ecdsa.PublicKey -> result bytes;
  Sum256 : bytes -> bytes;
  (* package resource *)
  Checksum : resource.Pack -> bytes
}.

(** packChunkSize is the size of a single chunk of data from a resource
    pack: 512 kB or 0.5 MB *)
Definition packChunkSize : Z := 1024 * 512.

(** [int64] arithmetic wraps around. *)
Definition wrap64 (z : Z) : Z := (z + 2 ^ 63) mod 2 ^ 64 - 2 ^ 63.

(** ** The resource pack queue *)

(** Modelled from the spec: the type [resourcePackQueue] and its methods
    [Request], [NextPack] and [AllDownloaded] are not in [conn.go], which
    only builds a queue from the packs of the connection and reads and
    writes its fields [currentPack] and [currentOffset].  The spec: the queue
    "owns a list of all packs the server offers; a subset the client
    requested; a cursor (current pack + byte offset)". *)
Record resourcePackQueue := {
  packs : list resource.Pack;
  packsToDownload : list resource.Pack;
  currentPack : option resource.Pack;
  currentOffset : Z
}.

Definition findPack (uuid : string) (l : list resource.Pack)
  : option resource.Pack :=
  find (fun p => String.eqb (resource.UUID p) uuid) l.

(** Modelled from the spec: "Request(ids): validate that every requested pack
    UUID exists in the offered list; build the download queue in the client's
    requested order; fails with UnknownPack(id) otherwise." *)
Fixpoint requested (ids : list string) (offered : list resource.Pack)
  : result (list resource.Pack) :=
  match ids with
  | [] => Ok []
  | id :: ids' =>
      match findPack id offered with
      | None => Err (Errorf "could not find resource pack %v" [VStr id])
      | Some p =>
          match requested ids' offered with
          | Ok l => Ok (p :: l)
          | Err e => Err e
          end
      end
  end.

Definition Request (ids : list string) (q : resourcePackQueue)
  : option error * resourcePackQueue :=
  match requested ids (packs q) with
  | Err e => (Some e, q)
  | Ok l => (None, {| packs := packs q; packsToDownload := l;
                     currentPack := currentPack q;
                     currentOffset := currentOffset q |})
  end.

(** Modelled from the spec: "AllDownloaded(): queue empty and last pack fully
    read." *)
Definition AllDownloaded (q : resourcePackQueue) : bool :=
  match packsToDownload q with
  | [] =>
      match currentPack q with
      | Some p => resource.Len p <=? currentOffset q
      | None => true
      end
  | _ :: _ => false
  end.

Section Connection.

Context (P : Packages).

(** Modelled from the spec: "NextPack(): advance cursor to the next queued
    pack, reset current_offset to 0, return a pack data info message (UUID,
    version, total size, chunk size, chunk count, hash).  Returns
    end-of-queue sentinel when empty."  The chunk count is the size
    divided by the chunk size, rounded up. *)
Definition NextPack (q : resourcePackQueue)
  : option packet.Packet * resourcePackQueue :=
  match packsToDownload q with
  | [] => (None, q)
  | p :: rest =>
      (Some (packet.ResourcePackDataInfo (resource.UUID p)
               (resource.Version p) (resource.Len p) packChunkSize
               ((resource.Len p + packChunkSize - 1) / packChunkSize)
               (Checksum P p)),
       {| packs := packs q; packsToDownload := rest;
          currentPack := Some p; currentOffset := 0 |})
  end.

(** Modelled from the spec: [jwt.MarshalPublicKey] is not in [conn.go]. The
    spec has the x5u of the token as the "base64(DER SubjectPublicKeyInfo
    of server P-384 public key)". *)
Definition MarshalPublicKey (pub : ecdsa.PublicKey) : result string :=
  match MarshalPKIXPublicKey P pub with
  | Err e => Err e
  | Ok der => Ok (Base64.EncodeToString Base64.StdEncoding der)
  end.

(** [pk.ID()] *)
Definition ID (pk : packet.Packet) : Z :=
  match pk with
  | packet.Login _ _ => IDLogin P
  | packet.PlayStatus _ => IDPlayStatus P
  | packet.ServerToClientHandshake _ => IDServerToClientHandshake P
  | packet.ClientToServerHandshake => IDClientToServerHandshake P
  | packet.Disconnect _ => IDDisconnect P
  | packet.ResourcePacksInfo _ _ _ _ => IDResourcePacksInfo P
  | packet.ResourcePackStack _ _ _ => IDResourcePackStack P
  | packet.ResourcePackClientResponse _ _ => IDResourcePackClientResponse P
  | packet.ResourcePackDataInfo _ _ _ _ _ _ => IDResourcePackDataInfo P
  | packet.ResourcePackChunkData _ _ _ _ => IDResourcePackChunkData P
  | packet.ResourcePackChunkRequest _ _ => IDResourcePackChunkRequest P
  | packet.Unknown id _ => id
  end.

(** ** The connection *)

(** Conn represents a Minecraft (Bedrock Edition) connection over a
    specific net.Conn transport layer.  The encoder and the decoder write
    to and read from the transport [conn] of the same record.  The
    channel [packets] is the list of the frames it buffers, at most 32;
    the channel [close], of capacity 1, is the number of values it
    buffers. *)
Record Conn := {
  conn : NetConn;
  encoder : packet.Codec;
  decoder : packet.Codec;
  privateKey : ecdsa.PrivateKey;
  salt : bytes;
  packets : list bytes;
  readDeadline : Time.Chan;
  bufferedSend : list bytes;
  loggedIn : bool;
  expectedID : Z;
  resourcePacks : list resource.Pack;
  texturePacksRequired : bool;
  packQueue : option resourcePackQueue;
  close : nat
}.

Definition with_conn (v : NetConn) (c : Conn) : Conn :=
  {| conn := v; encoder := encoder c; decoder := decoder c;
     privateKey := privateKey c; salt := salt c; packets := packets c;
     readDeadline := readDeadline c; bufferedSend := bufferedSend c;
     loggedIn := loggedIn c; expectedID := expectedID c;
     resourcePacks := resourcePacks c;
     texturePacksRequired := texturePacksRequired c;
     packQueue := packQueue c; close := close c |}.

Definition with_encoder (v : packet.Codec) (c : Conn) : Conn :=
  {| conn := conn c; encoder := v; decoder := decoder c;
     privateKey := privateKey c; salt := salt c; packets := packets c;
     readDeadline := readDeadline c; bufferedSend := bufferedSend c;
     loggedIn := loggedIn c; expectedID := expectedID c;
     resourcePacks := resourcePacks c;
     texturePacksRequired := texturePacksRequired c;
     packQueue := packQueue c; close := close c |}.

Definition with_decoder (v : packet.Codec) (c : Conn) : Conn :=
  {| conn := conn c; encoder := encoder c; decoder := v;
     privateKey := privateKey c; salt := salt c; packets := packets c;
     readDeadline := readDeadline c; bufferedSend := bufferedSend c;
     loggedIn := loggedIn c; expectedID := expectedID c;
     resourcePacks := resourcePacks c;
     texturePacksRequired := texturePacksRequired c;
     packQueue := packQueue c; close := close c |}.

Definition with_packets (v : list bytes) (c : Conn) : Conn :=
  {| conn := conn c; encoder := encoder c; decoder := decoder c;
     privateKey := privateKey c; salt := salt c; packets := v;
     readDeadline := readDeadline c; bufferedSend := bufferedSend c;
     loggedIn := loggedIn c; expectedID := expectedID c;
     resourcePacks := resourcePacks c;
     texturePacksRequired := texturePacksRequired c;
     packQueue := packQueue c; close := close c |}.

Definition with_readDeadline (v : Time.Chan) (c : Conn) : Conn :=
  {| conn := conn c; encoder := encoder c; decoder := decoder c;
     privateKey := privateKey c; salt := salt c; packets := packets c;
     readDeadline := v; bufferedSend := bufferedSend c;
     loggedIn := loggedIn c; expectedID := expectedID c;
     resourcePacks := resourcePacks c;
     texturePacksRequired := texturePacksRequired c;
     packQueue := packQueue c; close := close c |}.

Definition with_bufferedSend (v : list bytes) (c : Conn) : Conn :=
  {| conn := conn c; encoder := encoder c; decoder := decoder c;
     privateKey := privateKey c; salt := salt c; packets := packets c;
     readDeadline := readDeadline c; bufferedSend := v;
     loggedIn := loggedIn c; expectedID := expectedID c;
     resourcePacks := resourcePacks c;
     texturePacksRequired := texturePacksRequired c;
     packQueue := packQueue c; close := close c |}.

Definition with_loggedIn (v : bool) (c : Conn) : Conn :=
  {| conn := conn c; encoder := encoder c; decoder := decoder c;
     privateKey := privateKey c; salt := salt c; packets := packets c;
     readDeadline := readDeadline c; bufferedSend := bufferedSend c;
     loggedIn := v; expectedID := expectedID c;
     resourcePacks := resourcePacks c;
     texturePacksRequired := texturePacksRequired c;
     packQueue := packQueue c; close := close c |}.

Definition with_expectedID (v : Z) (c : Conn) : Conn :=
  {| conn := conn c; encoder := encoder c; decoder := decoder c;
     privateKey := privateKey c; salt := salt c; packets := packets c;
     readDeadline := readDeadline c; bufferedSend := bufferedSend c;
     loggedIn := loggedIn c; expectedID := v;
     resourcePacks := resourcePacks c;
     texturePacksRequired := texturePacksRequired c;
     packQueue := packQueue c; close := close c |}.

Definition with_packQueue (v : option resourcePackQueue) (c : Conn) : Conn :=
  {| conn := conn c; encoder := encoder c; decoder := decoder c;
     privateKey := privateKey c; salt := salt c; packets := packets c;
     readDeadline := readDeadline c; bufferedSend := bufferedSend c;
     loggedIn := loggedIn c; expectedID := expectedID c;
     resourcePacks := resourcePacks c;
     texturePacksRequired := texturePacksRequired c;
     packQueue := v; close := close c |}.

Definition with_close (v : nat) (c : Conn) : Conn :=
  {| conn := conn c; encoder := encoder c; decoder := decoder c;
     privateKey := privateKey c; salt := salt c; packets := packets c;
     readDeadline := readDeadline c; bufferedSend := bufferedSend c;
     loggedIn := loggedIn c; expectedID := expectedID c;
     resourcePacks := resourcePacks c;
     texturePacksRequired := texturePacksRequired c;
     packQueue := packQueue c; close := v |}.

(** ** The monad of the methods *)

(** A call returns a value and leaves the connection in a new state, or
    blocks (on a channel that is full or empty, in a [select] none of
    whose cases is ready), or panics (on a nil pointer). *)
Inductive outcome (A : Type) :=
| Ret (a : A) (c : Conn)
| Block
| Panic.
Arguments Ret {A} a c.
Arguments Block {A}.
Arguments Panic {A}.

Definition M (A : Type) := Conn -> outcome A.

Definition ret {A} (a : A) : M A := fun c => Ret a c.

Definition bind {A B} (m : M A) (k : A -> M B) : M B :=
  fun c =>
    match m c with
    | Ret a c' => k a c'
    | Block => Block
    | Panic => Panic
    end.

Definition get : M Conn := fun c => Ret c c.
Definition modify (f : Conn -> Conn) : M unit := fun c => Ret tt (f c).

Notation "x <- m ;; k" := (bind m (fun x => k))
  (at level 61, m at next level, right associativity).
Notation "m ;; k" := (bind m (fun _ => k))
  (at level 61, right associativity).

(** The channel operations. *)
Definition packets_send (data : bytes) : M unit :=
  fun c =>
    if (List.length (packets c) <? 32)%nat
    then Ret tt (with_packets (packets c ++ [data]) c)
    else Block.

Definition close_send : M unit :=
  fun c =>
    if (close c <? 1)%nat then Ret tt (with_close (S (close c)) c)
    else Block.

Definition close_recv : M unit :=
  fun c =>
    match close c with
    | O => Block
    | S n => Ret tt (with_close n c)
    end.

(** The case of a [select] over [conn.packets], [conn.readDeadline] and
    [conn.close] the runtime picks, among those that are ready. *)
Inductive select_case :=
| CasePackets
| CaseReadDeadline
| CaseClose.

(** ** Writing *)

(** Write writes a slice of serialised packet data to the Conn.  The data
    is buffered until the next 20th of a tick. *)
Definition Write (b : bytes) : M (Z * option error) :=
  modify (fun c => with_bufferedSend (bufferedSend c ++ [b]) c) ;;
  ret (Z.of_nat (List.length b), None).

(** WritePacket encodes the packet passed and writes it to the Conn. *)
Definition WritePacket (pk : packet.Packet) : M (option error) :=
  match Header_Write P (ID pk) with
  | Err e => ret (Some (Errorf "error writing packet header: %v" [VErr e]))
  | Ok header =>
      r <- Write (header ++ Marshal P pk) ;;
      ret (snd r)
  end.

(** Flush flushes the packets currently buffered by the connections to the
    underlying net.Conn, so that they are directly sent. *)
Definition Flush : M (option error) :=
  c <- get ;;
  match bufferedSend c with
  | [] => ret None
  | _ :: _ =>
      match Encode (bufferedSend c) (encoder c) (conn c) with
      | (Some e, enc, t) =>
          modify (fun c => with_conn t (with_encoder enc c)) ;;
          ret (Some (Errorf "error encoding packet batch: %v" [VErr e]))
      | (None, enc, t) =>
          modify (fun c => with_conn t (with_encoder enc c)) ;;
          (* Reset the send slice so that we don't accidentally send the
             same packets. *)
          modify (with_bufferedSend []) ;;
          ret None
      end
  end.

(** Close closes the Conn and its underlying connection.  Before closing,
    it also calls Flush() so that any packets currently pending are sent
    out. *)
Definition Close : M (option error) :=
  c <- get ;;
  if negb (close c =? 0)%nat then
    (* The connection was already closed, no need to do anything. *)
    ret None
  else
    Flush ;;
    close_send ;;
    c <- get ;;
    let (err, t) := NetConn_Close (conn c) in
    modify (with_conn t) ;;
    ret err.

(** ** Reading *)

(** ReadPacket reads a packet from the Conn, depending on the packet ID
    that is found in front of the packet data.  A packet ID that is not in
    the pool gives a [packet.Unknown]. *)
Definition ReadPacket (now : Time.Time) (pick : select_case)
  : M (option packet.Packet * option error) :=
  c <- get ;;
  match pick with
  | CasePackets =>
      match packets c with
      | [] => fun _ => Block
      | data :: rest =>
          modify (with_packets rest) ;;
          match Header_Read P data with
          | Err e =>
              ret (None,
                   Some (Errorf "error reading packet header: %v" [VErr e]))
          | Ok (id, buf) =>
              let pk := match pool P id with
                        | Some pk => pk
                        | None => packet.Unknown id []
                        end in
              let (pk', err) := Unmarshal P pk buf in
              ret (Some pk', err)
          end
      end
  | CaseReadDeadline =>
      if Time.ready now (readDeadline c) then
        modify (with_readDeadline Time.Drained) ;;
        ret (None, Some (Errorf "error reading packet: read timeout" []))
      else fun _ => Block
  | CaseClose =>
      close_recv ;;
      close_send ;;
      ret (None, Some (Errorf "error reading packet: connection closed" []))
  end.

(** Read reads a packet from the connection into the byte slice passed,
    provided the byte slice is big enough to carry the full packet.  The
    result is the new contents of [b], the count and the error. *)
Definition Read (now : Time.Time) (pick : select_case) (b : bytes)
  : M (bytes * Z * option error) :=
  c <- get ;;
  match pick with
  | CasePackets =>
      match packets c with
      | [] => fun _ => Block
      | data :: rest =>
          modify (with_packets rest) ;;
          if (List.length b <? List.length data)%nat then
            ret (b, 0,
                 Some (Errorf "error reading data: A message sent on a Minecraft socket was larger than the buffer used to receive the message into" []))
          else
            (* copy(b, data) *)
            ret (data ++ skipn (List.length data) b,
                 Z.of_nat (List.length data), None)
      end
  | CaseReadDeadline =>
      if Time.ready now (readDeadline c) then
        modify (with_readDeadline Time.Drained) ;;
        ret (b, 0, Some (Errorf "error reading packet: read timeout" []))
      else fun _ => Block
  | CaseClose =>
      close_recv ;;
      close_send ;;
      ret (b, 0, Some (Errorf "error reading packet: connection closed" []))
  end.

(** ** Deadlines *)

(** SetReadDeadline sets the read deadline of the Conn to the time passed.
    [now] is what [time.Now()] returns at the check, [now'] what it returns
    when the timer is armed.  The test [t == empty] is on the instants. *)
Definition SetReadDeadline (now now' : Time.Time) (t : Time.Time)
  : M (option error) :=
  if Time.Before t now then
    ret (Some (Errorf "error setting read deadline: time passed is before time.Now()" []))
  else
    let empty := Time.zero in
    (if t =? empty then
       (* Empty time, so we just set the time to some crazy high value to
          ensure the read deadline is never actually reached. *)
       modify (with_readDeadline (Time.After now' (Time.Hour * 1000000)))
     else
       modify (with_readDeadline (Time.After now' (Time.Sub t now')))) ;;
    ret None.

(** SetDeadline is equivalent to calling SetReadDeadline and
    SetWriteDeadline at the same time. *)
Definition SetDeadline (now now' : Time.Time) (t : Time.Time)
  : M (option error) :=
  SetReadDeadline now now' t.

(** SetWriteDeadline is a stub function to implement net.Conn. *)
Definition SetWriteDeadline (t : Time.Time) : M (option error) :=
  ret None.

Definition LocalAddr : M string := c <- get ;; ret (localAddr (conn c)).
Definition RemoteAddr : M string := c <- get ;; ret (remoteAddr (conn c)).

(** ** The login sequence *)

(** enableEncryption enables encryption on the server side over the
    connection.  It sends an unencrypted handshake packet to the client
    and enables encryption after that. *)
Definition enableEncryption (clientPublicKey : ecdsa.PublicKey)
  : M (option error) :=
  c <- get ;;
  match MarshalPublicKey (ecdsa.Public (privateKey c)) with
  | Err e => ret (Some (Errorf "error marshaling public key: %v" [VErr e]))
  | Ok pubKey =>
      let header := {| jwt.Algorithm := "ES384"; jwt.X5U := pubKey |} in
      let payload :=
        [("salt"%string,
          Base64.EncodeToString Base64.RawStdEncoding (salt c))] in
      (* We produce an encoded JWT using the header and payload above,
         then we send the JWT in a ServerToClientHandshake packet so that
         the client can initialise encryption. *)
      match jwt_New P header payload (privateKey c) with
      | Err e => ret (Some (Errorf "error creating encoded JWT: %v" [VErr e]))
      | Ok serverJWT =>
          err <- WritePacket (packet.ServerToClientHandshake serverJWT) ;;
          match err with
          | Some e =>
              ret (Some (Errorf "error sending ServerToClientHandshake packet: %v" [VErr e]))
          | None =>
              (* Flush immediately as we'll enable encryption after
                 this. *)
              Flush ;;
              (* We first compute the shared secret. *)
              let clientX := ecdsa.X clientPublicKey in
              let clientY := ecdsa.Y clientPublicKey in
              let (x, _) :=
                elliptic.ScalarMult (ecdsa.Curve clientPublicKey)
                  clientX clientY (Big.Bytes (ecdsa.D (privateKey c))) in
              let sharedSecret := Big.Bytes x in
              let keyBytes := Sum256 P (salt c ++ sharedSecret) in
              (* Finally we enable encryption for the encoder and decoder
                 using the secret key bytes we produced. *)
              modify (fun c =>
                with_encoder (packet.EnableEncryption keyBytes (encoder c)) c) ;;
              modify (fun c =>
                with_decoder (packet.EnableEncryption keyBytes (decoder c)) c) ;;
              ret None
          end
      end
  end.

(** handleLogin handles an incoming login packet.  It verifies an decodes
    the login request found in the packet and returns an error if it
    couldn't be done successfully. *)
Definition handleLogin (ClientProtocol : Z) (ConnectionRequest : bytes)
  : M (option error) :=
  (* The next expected packet is a response from the client to the
     handshake. *)
  modify (with_expectedID (IDClientToServerHandshake P)) ;;
  if negb (ClientProtocol =? CurrentProtocol P) then
    (* By default we assume the client is outdated. *)
    let status :=
      if ClientProtocol >? CurrentProtocol P
      then PlayStatusLoginFailedServer P
      else PlayStatusLoginFailedClient P in
    WritePacket (packet.PlayStatus status) ;;
    Close
  else
    match Verify P ConnectionRequest with
    | Err e => ret (Some (Errorf "error verifying login request: %v" [VErr e]))
    | Ok (publicKey, authenticated) =>
        if negb authenticated then
          addr <- RemoteAddr ;;
          ret (Some (Errorf "connection %v was not authenticated to XBOX Live" [VStr addr]))
        else
          match Decode P ConnectionRequest with
          | Err e =>
              ret (Some (Errorf "error decoding login request: %v" [VErr e]))
          | Ok (identityData, clientData) =>
              match IdentityData_Validate P identityData with
              | Some e => ret (Some (Errorf "invalid identity data: %v" [VErr e]))
              | None =>
                  match ClientData_Validate P clientData with
                  | Some e =>
                      ret (Some (Errorf "invalid client data: %v" [VErr e]))
                  | None =>
                      err <- enableEncryption publicKey ;;
                      match err with
                      | Some e =>
                          ret (Some (Errorf "error enabling encryption: %v" [VErr e]))
                      | None => ret None
                      end
                  end
              end
          end
    end.

(** The loop of [handleClientToServerHandshake] over the packs: whether a
    pack has scripts, the behaviour packs and the texture packs. *)
Definition packsInfo (l : list resource.Pack)
  : bool * list packet.ResourcePack * list packet.ResourcePack :=
  fold_left
    (fun (acc : bool * list packet.ResourcePack * list packet.ResourcePack)
         (pack : resource.Pack) =>
       let '(hasScripts, behaviour, texture) := acc in
       let resourcePack :=
         {| packet.UUID := resource.UUID pack;
            packet.Version := resource.Version pack;
            packet.Size := resource.Len pack;
            packet.HasScripts := resource.HasScripts pack |} in
       let hasScripts := hasScripts || resource.HasScripts pack in
       if resource.HasBehaviours pack
       then (hasScripts, behaviour ++ [resourcePack], texture)
       else (hasScripts, behaviour, texture ++ [resourcePack]))
    l (false, [], []).

(** handleClientToServerHandshake handles an incoming
    ClientToServerHandshake packet. *)
Definition handleClientToServerHandshake : M (option error) :=
  (* The next expected packet is a resource pack client response. *)
  modify (with_expectedID (IDResourcePackClientResponse P)) ;;
  err <- WritePacket (packet.PlayStatus (PlayStatusLoginSuccess P)) ;;
  match err with
  | Some e =>
      ret (Some (Errorf "error sending play status login success: %v" [VErr e]))
  | None =>
      c <- get ;;
      let '(hasScripts, behaviour, texture) := packsInfo (resourcePacks c) in
      (* Finally we send the packet after the play status. *)
      err <- WritePacket (packet.ResourcePacksInfo (texturePacksRequired c)
                            hasScripts behaviour texture) ;;
      match err with
      | Some e =>
          ret (Some (Errorf "error sending resource packs info: %v" [VErr e]))
      | None => ret None
      end
  end.

(** The loop of [handleResourcePackClientResponse] over the packs. *)
Definition packsStack (l : list resource.Pack)
  : list packet.ResourcePack * list packet.ResourcePack :=
  fold_left
    (fun (acc : list packet.ResourcePack * list packet.ResourcePack)
         (pack : resource.Pack) =>
       let '(behaviour, texture) := acc in
       let resourcePack :=
         {| packet.UUID := resource.UUID pack;
            packet.Version := resource.Version pack;
            packet.Size := 0;
            packet.HasScripts := false |} in
       if resource.HasBehaviours pack
       then (behaviour ++ [resourcePack], texture)
       else (behaviour, texture ++ [resourcePack]))
    l ([], []).

(** nextResourcePackDownload moves to the next resource pack to download
    and sends a resource pack data info packet with information about
    it. *)
Definition nextResourcePackDownload : M (option error) :=
  c <- get ;;
  match packQueue c with
  | None => fun _ => Panic
  | Some q =>
      let (pk, q') := NextPack q in
      modify (with_packQueue (Some q')) ;;
      match pk with
      | None => ret (Some (Errorf "no resource packs to download" []))
      | Some pk =>
          err <- WritePacket pk ;;
          match err with
          | Some e =>
              ret (Some (Errorf "error sending resource pack data info packet: %v" [VErr e]))
          | None =>
              (* Set the next expected packet to ResourcePackChunkRequest
                 packets. *)
              modify (with_expectedID (IDResourcePackChunkRequest P)) ;;
              ret None
          end
      end
  end.

(** handleResourcePackClientResponse handles an incoming resource pack
    client response packet.  The packet is handled differently depending
    on the response. *)
Definition handleResourcePackClientResponse (Response : Z)
  (PacksToDownload : list string) : M (option error) :=
  if Response =? PackResponseRefused P then
    Close
  else if Response =? PackResponseSendPacks P then
    c <- get ;;
    let (err, q) :=
      Request PacksToDownload
        {| packs := resourcePacks c; packsToDownload := [];
           currentPack := None; currentOffset := 0 |} in
    modify (with_packQueue (Some q)) ;;
    match err with
    | Some e =>
        ret (Some (Errorf "error looking up resource packs to download: %v" [VErr e]))
    | None =>
        (* Proceed with the first resource pack download. *)
        nextResourcePackDownload
    end
  else if Response =? PackResponseAllPacksDownloaded P then
    c <- get ;;
    let (behaviour, texture) := packsStack (resourcePacks c) in
    err <- WritePacket (packet.ResourcePackStack (texturePacksRequired c)
                          behaviour texture) ;;
    match err with
    | Some e =>
        ret (Some (Errorf "error writing resource pack stack packet: %v" [VErr e]))
    | None => ret None
    end
  else if Response =? PackResponseCompleted P then
    (* This is as far as we can go in terms of covering up the login
       sequence. *)
    modify (with_loggedIn true) ;;
    ret None
  else
    ret (Some (Errorf "unknown resource pack client response: %v" [VInt Response])).

(** [make([]byte, n)] *)
Definition make (n : Z) : bytes := repeat Byte.x00 (Z.to_nat n).

(** The function [handleResourcePackChunkRequest] defers once the read
    hits the end of the pack: it runs when the handler returns. *)
Definition afterLastChunk : M unit :=
  c <- get ;;
  match packQueue c with
  | None => fun _ => Panic
  | Some q =>
      if negb (AllDownloaded q) then
        nextResourcePackDownload ;;
        ret tt
      else
        modify (with_expectedID (IDResourcePackClientResponse P))
  end.

(** handleResourcePackChunkRequest handles a resource pack chunk request,
    which requests a part of the resource pack to be downloaded. *)
Definition handleResourcePackChunkRequest (UUID : string) (ChunkIndex : Z)
  : M (option error) :=
  c <- get ;;
  match packQueue c with
  | None => fun _ => Panic
  | Some q =>
      match currentPack q with
      | None => fun _ => Panic
      | Some current =>
          if negb (String.eqb (resource.UUID current) UUID) then
            ret (Some (Errorf "resource pack chunk request had unexpected UUID: expected %v, but got %v"
                         [VStr (resource.UUID current); VStr UUID]))
          else if negb (currentOffset q =? wrap64 (ChunkIndex * packChunkSize)) then
            ret (Some (Errorf "resource pack chunk request had unexpected chunk index: expected %v, but got %v"
                         [VInt (Z.quot (currentOffset q) packChunkSize);
                          VInt ChunkIndex]))
          else
            let DataOffset := currentOffset q in
            modify (with_packQueue
                      (Some {| packs := packs q;
                               packsToDownload := packsToDownload q;
                               currentPack := currentPack q;
                               currentOffset :=
                                 wrap64 (currentOffset q + packChunkSize) |})) ;;
            (* We read the data directly into the response's data. *)
            match resource.ReadAt current (make packChunkSize) DataOffset with
            | (Data, n, Some err) =>
                (* If we hit an EOF, we don't need to return an error, as
                   we've simply reached the end of the content AKA the
                   last chunk. *)
                match err with
                | EOF =>
                    err <- WritePacket
                             (packet.ResourcePackChunkData UUID ChunkIndex
                                DataOffset (firstn (Z.to_nat n) Data)) ;;
                    afterLastChunk ;;
                    match err with
                    | Some e =>
                        ret (Some (Errorf "error writing resource pack chunk data packet: %v" [VErr e]))
                    | None => ret None
                    end
                | _ =>
                    ret (Some (Errorf "error reading resource pack chunk: %v" [VErr err]))
                end
            | (Data, n, None) =>
                err <- WritePacket
                         (packet.ResourcePackChunkData UUID ChunkIndex
                            DataOffset Data) ;;
                match err with
                | Some e =>
                    ret (Some (Errorf "error writing resource pack chunk data packet: %v" [VErr e]))
                | None => ret None
                end
            end
      end
  end.

(** handlePlayStatus handles an incoming PlayStatus packet.  It reacts
    differently depending on the status found in the packet. *)
Definition handlePlayStatus (Status : Z) : M (option error) :=
  if Status =? PlayStatusLoginSuccess P then
    ret None
  else if Status =? PlayStatusLoginFailedClient P then
    Close ;; ret (Some (Errorf "client outdated" []))
  else if Status =? PlayStatusLoginFailedServer P then
    Close ;; ret (Some (Errorf "server outdated" []))
  else if Status =? PlayStatusPlayerSpawn P then
    ret None
  else if Status =? PlayStatusLoginFailedInvalidTenant P then
    Close ;; ret (Some (Errorf "invalid edu edition game owner" []))
  else if Status =? PlayStatusLoginFailedVanillaEdu P then
    Close ;; ret (Some (Errorf "cannot join an edu edition game on vanilla" []))
  else if Status =? PlayStatusLoginFailedEduVanilla P then
    Close ;; ret (Some (Errorf "cannot join a vanilla game on edu edition" []))
  else if Status =? PlayStatusLoginFailedServerFull P then
    Close ;; ret (Some (Errorf "server full" []))
  else
    ret (Some (Errorf "unknown play status in PlayStatus packet %v" [VInt Status])).

(** handleIncoming handles an incoming serialised packet from the
    underlying connection.  If the connection is not yet logged in, the
    packet is immediately read and processed. *)
Definition handleIncoming (now : Time.Time) (pick : select_case)
  (data : bytes) : M (option error) :=
  packets_send data ;;
  c <- get ;;
  if negb (loggedIn c) then
    r <- ReadPacket now pick ;;
    match r with
    | (_, Some err) => ret (Some err)
    | (None, None) => fun _ => Panic
    | (Some pk, None) =>
        c <- get ;;
        if negb (ID pk =? expectedID c) then
          (* This is not the packet we expected next in the login
             sequence.  We just ignore it as it might be a packet such as
             a movement that was simply sent too early. *)
          ret None
        else
          match pk with
          (* Internal packets destined for the server. *)
          | packet.Login ClientProtocol ConnectionRequest =>
              handleLogin ClientProtocol ConnectionRequest
          | packet.ClientToServerHandshake =>
              handleClientToServerHandshake
          | packet.ResourcePackClientResponse Response PacksToDownload =>
              handleResourcePackClientResponse Response PacksToDownload
          | packet.ResourcePackChunkRequest UUID ChunkIndex =>
              handleResourcePackChunkRequest UUID ChunkIndex
          (* Internal packets destined for the client. *)
          | packet.PlayStatus Status => handlePlayStatus Status
          | packet.Disconnect _ => Close
          | _ => ret None
          end
    end
  else ret None.

(** ** A new connection and its flush worker *)

(** newConn creates a new Minecraft connection for the net.Conn passed.
    The key and the salt come from [crypto/rand]. *)
Definition newConn (netConn : NetConn) (key : ecdsa.PrivateKey)
  (salt16 : bytes) : Conn :=
  {| conn := netConn;
     encoder := packet.NewCodec;
     decoder := packet.NewCodec;
     privateKey := key;
     salt := salt16;
     packets := [];
     readDeadline := Time.Nil;
     bufferedSend := [];
     loggedIn := false;
     (* By default we set this to the login packet. *)
     expectedID := IDLogin P;
     resourcePacks := [];
     texturePacksRequired := false;
     packQueue := None;
     close := 0%nat |}.

(** The goroutine [newConn] starts.  It waits in its [select]
    ([AtSelect]); on a tick it flushes and waits again, or returns when
    the flush fails; when it receives from [c.close] it is about to
    propagate the close signal again ([AtResend], line 96 of the source);
    then it has returned ([Returned]). *)
Inductive worker :=
| AtSelect
| AtResend
| Returned.

Inductive worker_case :=
| CaseTick
| CaseCloseSignal.

(** One step of the goroutine: up to its next channel operation. *)
Definition worker_step (pick : worker_case) (w : worker) : M worker :=
  match w with
  | AtSelect =>
      match pick with
      | CaseTick =>
          err <- Flush ;;
          match err with
          | Some _ => ret Returned
          | None => ret AtSelect
          end
      | CaseCloseSignal =>
          close_recv ;;
          ret AtResend
      end
  | AtResend =>
      (* Break out of the goroutine and propagate the close signal
         again. *)
      close_send ;;
      ret Returned
  | Returned => fun _ => Block
  end.

End Connection.

Arguments Ret {A} a c.
Arguments Block {A}.
Arguments Panic {A}.

(** The batch a successful [Flush] hands to the transport, and the
    connection it leaves: the encoder has written the buffered frames as one
    batch, sealed when encryption is enabled, and the buffer is reset. *)
Definition batchOf (c : Conn) : Batch :=
  {| frames := bufferedSend c;
     sealed := match packet.key (encoder c) with
               | Some k => Some (k, packet.counter (encoder c))
               | None => None
               end |}.

Definition flushed (c : Conn) : Conn :=
  match Encode (bufferedSend c) (encoder c) (conn c) with
  | (_, enc, t) => with_bufferedSend [] (with_conn t (with_encoder enc c))
  end.

(** A frame decodes to the packet [pk]: what [ReadPacket] does with the
    bytes it receives from [conn.packets] when neither the header nor the
    body fails to decode. *)
Definition decodes (P : Packages) (data : bytes) (pk : packet.Packet) : Prop :=
  exists id buf,
    Header_Read P data = Ok (id, buf) /\
    Unmarshal P (match pool P id with
                 | Some pk0 => pk0
                 | None => packet.Unknown id []
                 end) buf = (pk, None).

(** ** A small instance of the packages

    The constants are those of the Bedrock protocol; the codec writes a
    packet ID as one byte and a packet's fields as single bytes; the curve,
    the hash and the token are toys.  The instance serves to run the
    connection on concrete inputs. *)

Module Toy.

Definition curve : elliptic.Curve :=
  {| elliptic.ScalarMult := fun x y k =>
       (x * Big.of_bytes k, y * Big.of_bytes k) |}.

Definition toy_Header_Read (data : bytes) : result (Z * bytes) :=
  match data with
  | [] => Err EOF
  | b :: rest => Ok (byte_to_Z b, rest)
  end.

Definition toy_pool (id : Z) : option packet.Packet :=
  if id =? 1 then Some (packet.Login 0 [])
  else if id =? 2 then Some (packet.PlayStatus 0)
  else if id =? 3 then Some (packet.ServerToClientHandshake [])
  else if id =? 4 then Some packet.ClientToServerHandshake
  else if id =? 5 then Some (packet.Disconnect EmptyString)
  else if id =? 8 then Some (packet.ResourcePackClientResponse 0 [])
  else None.

Definition toy_Marshal (pk : packet.Packet) : bytes :=
  match pk with
  | packet.Login p req => byte_of_Z p :: req
  | packet.PlayStatus s => [byte_of_Z s]
  | packet.ServerToClientHandshake t => t
  | packet.ResourcePackClientResponse r _ => [byte_of_Z r]
  | packet.ResourcePackChunkData _ i _ d => byte_of_Z i :: d
  | packet.Unknown _ payload => payload
  | _ => []
  end.

Definition toy_Unmarshal (pk : packet.Packet) (buf : bytes)
  : packet.Packet * option error :=
  match pk, buf with
  | packet.Login _ _, b :: rest => (packet.Login (byte_to_Z b) rest, None)
  | packet.PlayStatus _, [b] => (packet.PlayStatus (byte_to_Z b), None)
  | packet.ServerToClientHandshake _, t =>
      (packet.ServerToClientHandshake t, None)
  | packet.ClientToServerHandshake, _ => (pk, None)
  | packet.ResourcePackClientResponse _ _, [b] =>
      (packet.ResourcePackClientResponse (byte_to_Z b) [], None)
  | packet.Unknown id _, payload => (packet.Unknown id payload, None)
  | _, _ => (pk, Some EOF)
  end.

Definition toy_Verify (req : bytes) : result (ecdsa.PublicKey * bool) :=
  match req with
  | [] => Err (ErrForeign "empty chain")
  | b :: _ =>
      Ok ({| ecdsa.Curve := curve; ecdsa.X := 5; ecdsa.Y := 7 |},
          negb (Byte.eqb b Byte.x00))
  end.

Definition toy_jwt_New (h : jwt.Header) (payload : list (string * string))
  (key : ecdsa.PrivateKey) : result bytes :=
  Ok (list_byte_of_string (jwt.Algorithm h) ++
      list_byte_of_string (jwt.X5U h) ++
      flat_map (fun kv => list_byte_of_string (fst kv) ++
                          list_byte_of_string (snd kv)) payload).

Definition packages : Packages :=
  {| CurrentProtocol := 100;
     IDLogin := 1;
     IDPlayStatus := 2;
     IDServerToClientHandshake := 3;
     IDClientToServerHandshake := 4;
     IDDisconnect := 5;
     IDResourcePacksInfo := 6;
     IDResourcePackStack := 7;
     IDResourcePackClientResponse := 8;
     IDResourcePackDataInfo := 82;
     IDResourcePackChunkData := 83;
     IDResourcePackChunkRequest := 84;
     PlayStatusLoginSuccess := 0;
     PlayStatusLoginFailedClient := 1;
     PlayStatusLoginFailedServer := 2;
     PlayStatusPlayerSpawn := 3;
     PlayStatusLoginFailedInvalidTenant := 4;
     PlayStatusLoginFailedVanillaEdu := 5;
     PlayStatusLoginFailedEduVanilla := 6;
     PlayStatusLoginFailedServerFull := 7;
     PackResponseRefused := 1;
     PackResponseSendPacks := 2;
     PackResponseAllPacksDownloaded := 3;
     PackResponseCompleted := 4;
     Header_Write := fun id => Ok [byte_of_Z id];
     Header_Read := toy_Header_Read;
     pool := toy_pool;
     Marshal := toy_Marshal;
     Unmarshal := toy_Unmarshal;
     IdentityData := unit;
     ClientData := unit;
     Verify := toy_Verify;
     Decode := fun _ => Ok (tt, tt);
     IdentityData_Validate := fun _ => None;
     ClientData_Validate := fun _ => None;
     jwt_New := toy_jwt_New;
     MarshalPKIXPublicKey := fun pub =>
       Ok [byte_of_Z (ecdsa.X pub); byte_of_Z (ecdsa.Y pub)];
     Sum256 := fun b => b;
     Checksum := fun _ => [] |}.

Definition transport : NetConn :=
  {| written := []; closed := false; closeCalls := 0;
     localAddr := "server"; remoteAddr := "client" |}.

Definition key : ecdsa.PrivateKey :=
  {| ecdsa.Public := {| ecdsa.Curve := curve; ecdsa.X := 3; ecdsa.Y := 4 |};
     ecdsa.D := 258 |}.

Definition salt16 : bytes := repeat Byte.xff 16.

(** A connection as [newConn] returns it. *)
Definition fresh : Conn := newConn packages transport key salt16.

(** A pack of three bytes, and a connection in the middle of the login
    sequence that is sending it. *)
Definition pack3 : resource.Pack :=
  {| resource.UUID := "p3"; resource.Version := "1.0.0";
     resource.content := [Byte.x01; Byte.x02; Byte.x03];
     resource.HasScripts := false; resource.HasBehaviours := false |}.

Definition sending (q : resourcePackQueue) : Conn :=
  with_packQueue (Some q)
    (with_expectedID (IDResourcePackChunkRequest packages) fresh).

Definition queue3 : resourcePackQueue :=
  {| packs := [pack3]; packsToDownload := [];
     currentPack := Some pack3; currentOffset := 0 |}.

(** A pack with behaviours and scripts, and a connection of a listener that
    offers the packs [l]. *)
Definition packB : resource.Pack :=
  {| resource.UUID := "pB"; resource.Version := "2.0.0";
     resource.content := [Byte.x0a; Byte.x0b];
     resource.HasScripts := true; resource.HasBehaviours := true |}.

Definition offering (l : list resource.Pack) : Conn :=
  {| conn := conn fresh; encoder := encoder fresh; decoder := decoder fresh;
     privateKey := privateKey fresh; salt := salt fresh;
     packets := packets fresh; readDeadline := readDeadline fresh;
     bufferedSend := bufferedSend fresh; loggedIn := loggedIn fresh;
     expectedID := IDResourcePackClientResponse packages;
     resourcePacks := l; texturePacksRequired := true;
     packQueue := packQueue fresh; close := close fresh |}.

End Toy.

(** ** Sequences of calls and what every method keeps *)

(** The calls [f a1], [f a2], ... one after the other, with their results. *)
Fixpoint each {A B : Type} (f : A -> M B) (l : list A) : M (list B) :=
  match l with
  | [] => ret []
  | a :: l' =>
      bind (f a) (fun b => bind (each f l') (fun bs => ret (b :: bs)))
  end.

(** What no method of the connection assigns to, or assigns to in one
    direction only: [loggedIn] is only ever set to true, and the key pair,
    the salt and the packs on offer are only read. *)
Definition stable (c c' : Conn) : Prop :=
  (loggedIn c = true -> loggedIn c' = true) /\
  privateKey c' = privateKey c /\
  salt c' = salt c /\
  resourcePacks c' = resourcePacks c /\
  texturePacksRequired c' = texturePacksRequired c.

Definition keeps {A : Type} (m : M A) : Prop :=
  forall c a c', m c = Ret a c' -> stable c c'.

(** * Properties *)

Arguments make : simpl never.
Arguments wrap64 : simpl never.
Arguments packChunkSize : simpl never.

(** Runs a method down to its first blocked match. *)
Ltac fields :=
  cbn [conn encoder decoder privateKey salt packets readDeadline bufferedSend
       loggedIn expectedID resourcePacks texturePacksRequired packQueue close
       with_conn with_encoder with_decoder with_packets with_readDeadline
       with_bufferedSend with_loggedIn with_expectedID with_packQueue
       with_close].

Ltac run :=
  cbv beta delta [bind ret get modify] iota; cbn beta iota zeta; fields.

Lemma byte_to_Z_of_Z (n : Z) : byte_to_Z (byte_of_Z n) = n mod 256.
Proof.
  unfold byte_to_Z, byte_of_Z.
  assert (Hn : 0 <= n mod 256 < 256) by (apply Z.mod_pos_bound; lia).
  destruct (Byte.of_N (Z.to_N (n mod 256))) as [b|] eqn:E.
  - apply Byte.to_of_N in E. rewrite E. lia.
  - apply Byte.of_N_None_iff in E. lia.
Qed.

Lemma wrap64_small (z : Z) : - 2 ^ 63 <= z < 2 ^ 63 -> wrap64 z = z.
Proof.
  intros H. unfold wrap64.
  rewrite Z.mod_small; lia.
Qed.

Module BigFacts.

Lemma of_bytes_snoc (l : bytes) (d : byte) :
  Big.of_bytes (l ++ [d]) = Big.of_bytes l * 256 + byte_to_Z d.
Proof.
  unfold Big.of_bytes. rewrite fold_left_app. reflexivity.
Qed.

Lemma of_bytes_digits (fuel : nat) :
  forall n, 0 <= n < 2 ^ Z.of_nat fuel ->
            Big.of_bytes (rev (Big.digits fuel n)) = n.
Proof.
  induction fuel as [|fuel IH]; intros n Hn.
  - cbn in *. lia.
  - cbn [Big.digits].
    destruct (Z.leb_spec n 0) as [Hle|Hlt].
    + cbn. lia.
    + cbn [rev]. rewrite of_bytes_snoc, byte_to_Z_of_Z, IH.
      * pose proof (Z.div_mod n 256). lia.
      * rewrite Nat2Z.inj_succ, Z.pow_succ_r in Hn by lia.
        split; [apply Z.div_pos; lia|].
        apply Z.div_lt_upper_bound; lia.
Qed.

(** [Bytes] is big-endian: read back most significant byte first, the
    slice is the absolute value. *)
Lemma of_bytes_Bytes (x : Z) : Big.of_bytes (Big.Bytes x) = Z.abs x.
Proof.
  unfold Big.Bytes. apply of_bytes_digits.
  split; [lia|].
  destruct (Z.eq_dec (Z.abs x) 0) as [E|E].
  - rewrite E. cbn. lia.
  - rewrite Nat2Z.inj_succ, Z2Nat.id by apply Z.log2_nonneg.
    apply Z.log2_spec. lia.
Qed.

Lemma digits_top_nonzero (fuel : nat) :
  forall n l d,
    0 <= n < 2 ^ Z.of_nat fuel ->
    Big.digits fuel n = l ++ [d] ->
    byte_to_Z d <> 0.
Proof.
  induction fuel as [|fuel IH]; intros n l d Hn H.
  - destruct l; discriminate H.
  - cbn [Big.digits] in H.
    destruct (Z.leb_spec n 0) as [Hle|Hlt]; [destruct l; discriminate H|].
    assert (Hq : 0 <= n / 256 < 2 ^ Z.of_nat fuel).
    { rewrite Nat2Z.inj_succ, Z.pow_succ_r in Hn by lia.
      split; [apply Z.div_pos; lia|].
      apply Z.div_lt_upper_bound; lia. }
    destruct l as [|d0 l].
    + cbn [app] in H. injection H as Hd Hrest. subst d.
      rewrite byte_to_Z_of_Z.
      assert (Hz : n / 256 = 0).
      { destruct fuel as [|fuel']; [cbn in Hq; lia|].
        cbn [Big.digits] in Hrest.
        destruct (Z.leb_spec (n / 256) 0); [lia|discriminate Hrest]. }
      pose proof (Z.div_mod n 256). lia.
    + cbn [app] in H. injection H as _ Hrest.
      exact (IH (n / 256) l d Hq Hrest).
Qed.

(** [Bytes] has no leading zero byte: it is the shortest big-endian slice
    of the absolute value, not one padded to a fixed width. *)
Lemma Bytes_no_leading_zero (x : Z) (d : byte) (l : bytes) :
  Big.Bytes x = d :: l -> byte_to_Z d <> 0.
Proof.
  unfold Big.Bytes. intros H.
  apply (f_equal (@rev byte)) in H. rewrite rev_involutive in H.
  cbn [rev] in H.
  refine (digits_top_nonzero _ _ _ _ _ H).
  split; [lia|].
  destruct (Z.eq_dec (Z.abs x) 0) as [E|E].
  - rewrite E. cbn. lia.
  - rewrite Nat2Z.inj_succ, Z2Nat.id by apply Z.log2_nonneg.
    apply Z.log2_spec. lia.
Qed.

End BigFacts.

(** The encoder on the test vectors of RFC 4648, and [Bytes] on small
    numbers. *)
Example EncodeToString_vectors :
  Base64.EncodeToString Base64.StdEncoding (list_byte_of_string "foobar")
  = "Zm9vYmFy"%string /\
  Base64.EncodeToString Base64.StdEncoding (list_byte_of_string "fooba")
  = "Zm9vYmE="%string /\
  Base64.EncodeToString Base64.StdEncoding (list_byte_of_string "foob")
  = "Zm9vYg=="%string /\
  Base64.EncodeToString Base64.RawStdEncoding (list_byte_of_string "foob")
  = "Zm9vYg"%string /\
  Base64.EncodeToString Base64.RawStdEncoding [Byte.xfb; Byte.xff]
  = "+/8"%string /\
  Base64.EncodeToString Base64.RawURLEncoding [Byte.xfb; Byte.xff]
  = "-_8"%string.
Proof. repeat split; vm_compute; reflexivity. Qed.

Example Bytes_small :
  Big.Bytes 0 = [] /\
  Big.Bytes 258 = [Byte.x01; Byte.x02] /\
  Big.Bytes (-258) = [Byte.x01; Byte.x02] /\
  Big.Bytes 65536 = [Byte.x01; Byte.x00; Byte.x00].
Proof. repeat split; vm_compute; reflexivity. Qed.

(** ** Reading and the login dispatch *)

Section Reading.

Context (P : Packages).

Lemma ReadPacket_decodes now frame rest pk c :
  packets c = frame :: rest ->
  decodes P frame pk ->
  ReadPacket P now CasePackets c = Ret (Some pk, None) (with_packets rest c).
Proof.
  intros Hq (id & buf & Hh & Hu).
  unfold ReadPacket. run. rewrite Hq. run. rewrite Hh. run.
  rewrite Hu. reflexivity.
Qed.

(** What [handleIncoming] does with a frame that decodes, before the
    login sequence is over: the frame at the head of the queue is taken off
    and the packet goes to [k], its handler, when it is the expected one. *)
Lemma handleIncoming_decodes now data frame rest pk c :
  loggedIn c = false ->
  (List.length (packets c) < 32)%nat ->
  packets c ++ [data] = frame :: rest ->
  decodes P frame pk ->
  handleIncoming P now CasePackets data c =
  (if negb (ID P pk =? expectedID c) then Ret None (with_packets rest c)
   else
     match pk with
     | packet.Login ClientProtocol ConnectionRequest =>
         handleLogin P ClientProtocol ConnectionRequest
     | packet.ClientToServerHandshake => handleClientToServerHandshake P
     | packet.ResourcePackClientResponse Response PacksToDownload =>
         handleResourcePackClientResponse P Response PacksToDownload
     | packet.ResourcePackChunkRequest UUID ChunkIndex =>
         handleResourcePackChunkRequest P UUID ChunkIndex
     | packet.PlayStatus Status => handlePlayStatus P Status
     | packet.Disconnect _ => Close
     | _ => fun c => Ret None c
     end (with_packets rest c)).
Proof.
  intros Hl Hn Hq Hd.
  unfold handleIncoming, packets_send. run.
  apply Nat.ltb_lt in Hn. rewrite Hn. run.
  rewrite Hl. cbn [negb].
  rewrite (ReadPacket_decodes now frame rest pk) by (fields; assumption).
  run.
  destruct (negb (ID P pk =? expectedID c)); [reflexivity|].
  destruct pk; reflexivity.
Qed.

(** A frame whose header or body does not decode never reaches the
    comparison with [expectedID]: the error of [ReadPacket] is returned. *)
Lemma handleIncoming_decode_error now data c :
  loggedIn c = false ->
  packets c = [] ->
  (forall id buf,
     Header_Read P data = Ok (id, buf) ->
     exists pk e,
       Unmarshal P (match pool P id with
                    | Some pk0 => pk0
                    | None => packet.Unknown id []
                    end) buf = (pk, Some e)) ->
  exists e,
    handleIncoming P now CasePackets data c = Ret (Some e) c.
Proof.
  intros Hl Hp Hbad.
  unfold handleIncoming, packets_send. run. rewrite Hp. cbn [List.length].
  cbn [Nat.ltb Nat.leb]. run. rewrite Hl. cbn [negb].
  unfold ReadPacket. run. cbn [app]. run.
  destruct (Header_Read P data) as [[id buf]|e] eqn:Eh; run.
  - destruct (Hbad id buf eq_refl) as (pk & e & Hu). rewrite Hu. run.
    exists e. f_equal. destruct c; cbn in *; subst; reflexivity.
  - eexists. f_equal. destruct c; cbn in *; subst; reflexivity.
Qed.

(** C7.  Before the login sequence is over, a frame that decodes to a packet
    whose ID is not [expectedID] is ignored: [handleIncoming] returns nil,
    the frame is off the queue, and the expected ID, the logged-in flag, the
    pack queue, the send buffer, the codec and the transport are as they
    were. *)
Theorem handleIncoming_ignores_unexpected now data frame rest pk c :
  loggedIn c = false ->
  (List.length (packets c) < 32)%nat ->
  packets c ++ [data] = frame :: rest ->
  decodes P frame pk ->
  ID P pk <> expectedID c ->
  exists c',
    handleIncoming P now CasePackets data c = Ret None c' /\
    expectedID c' = expectedID c /\
    loggedIn c' = loggedIn c /\
    packQueue c' = packQueue c /\
    bufferedSend c' = bufferedSend c /\
    conn c' = conn c /\
    encoder c' = encoder c /\
    decoder c' = decoder c /\
    close c' = close c /\
    packets c' = rest.
Proof.
  intros Hl Hn Hq Hd Hid.
  exists (with_packets rest c).
  rewrite (handleIncoming_decodes now data frame rest pk) by assumption.
  apply Z.eqb_neq in Hid. rewrite Hid. cbn [negb].
  repeat split.
Qed.

End Reading.

Lemma handleIncoming_ignores_unexpected_witness :
  exists c',
    handleIncoming Toy.packages 0 CasePackets [Byte.x02; Byte.x00] Toy.fresh
    = Ret None c' /\
    expectedID c' = expectedID Toy.fresh /\
    loggedIn c' = loggedIn Toy.fresh /\
    packQueue c' = packQueue Toy.fresh /\
    bufferedSend c' = bufferedSend Toy.fresh /\
    conn c' = conn Toy.fresh /\
    encoder c' = encoder Toy.fresh /\
    decoder c' = decoder Toy.fresh /\
    close c' = close Toy.fresh /\
    packets c' = [].
Proof.
  apply (handleIncoming_ignores_unexpected Toy.packages 0
           [Byte.x02; Byte.x00] [Byte.x02; Byte.x00] [] (packet.PlayStatus 0)
           Toy.fresh).
  - reflexivity.
  - cbn. lia.
  - reflexivity.
  - exists 2, [Byte.x00]. split; reflexivity.
  - cbn. lia.
Defined.

(** ** [Read] into a buffer that is too small *)

(** C10.  When the frame at the head of the queue is longer than [b], [Read]
    returns 0 and an error, [b] is as it was, and the frame is off the
    queue: the connection that remains is the same whatever the frame was,
    so no later [Read] or [ReadPacket] can return it. *)
Theorem Read_short_buffer_loses_frame now data rest b c :
  packets c = data :: rest ->
  (List.length b < List.length data)%nat ->
  exists e c',
    Read now CasePackets b c = Ret (b, 0, Some e) c' /\
    c' = with_packets rest c /\
    packets c' = rest /\
    forall data', (List.length b < List.length data')%nat ->
      Read now CasePackets b (with_packets (data' :: rest) c)
      = Ret (b, 0, Some e) c'.
Proof.
  intros Hq Hlen.
  eexists. exists (with_packets rest c).
  unfold Read. run. rewrite Hq. run.
  apply Nat.ltb_lt in Hlen. rewrite Hlen.
  split; [reflexivity|]. split; [reflexivity|]. split; [reflexivity|].
  intros data' Hlen'. apply Nat.ltb_lt in Hlen'. rewrite Hlen'.
  reflexivity.
Qed.

Lemma Read_short_buffer_loses_frame_witness :
  exists e c',
    Read 0 CasePackets [Byte.x00]
      (with_packets [[Byte.x01; Byte.x02]; [Byte.x03]] Toy.fresh)
    = Ret ([Byte.x00], 0, Some e) c' /\
    c' = with_packets [[Byte.x03]] Toy.fresh /\
    packets c' = [[Byte.x03]] /\
    forall data', (1 < List.length data')%nat ->
      Read 0 CasePackets [Byte.x00]
        (with_packets (data' :: [[Byte.x03]])
           (with_packets [[Byte.x01; Byte.x02]; [Byte.x03]] Toy.fresh))
      = Ret ([Byte.x00], 0, Some e) c'.
Proof.
  apply (Read_short_buffer_loses_frame 0 [Byte.x01; Byte.x02] [[Byte.x03]]
           [Byte.x00]
           (with_packets [[Byte.x01; Byte.x02]; [Byte.x03]] Toy.fresh)).
  - reflexivity.
  - cbn. lia.
Defined.

(** ** Writing, flushing and closing *)

Section Writing.

Context (P : Packages).

Lemma WritePacket_ok pk h c :
  Header_Write P (ID P pk) = Ok h ->
  WritePacket P pk c
  = Ret None (with_bufferedSend (bufferedSend c ++ [h ++ Marshal P pk]) c).
Proof.
  intros Hh. unfold WritePacket, Write. rewrite Hh. reflexivity.
Qed.

Lemma Flush_empty c : bufferedSend c = [] -> Flush c = Ret None c.
Proof.
  intros H. unfold Flush. run. rewrite H. reflexivity.
Qed.

Lemma Flush_open c :
  closed (conn c) = false ->
  bufferedSend c <> [] ->
  Flush c = Ret None (flushed c).
Proof.
  intros Ho Hne. unfold Flush, flushed. run.
  destruct (bufferedSend c) as [|f fs] eqn:E; [congruence|].
  unfold Encode, NetConn_Write. rewrite Ho. reflexivity.
Qed.

Lemma flushed_open c :
  closed (conn c) = false ->
  written (conn (flushed c)) = written (conn c) ++ [batchOf c] /\
  closed (conn (flushed c)) = false /\
  closeCalls (conn (flushed c)) = closeCalls (conn c) /\
  bufferedSend (flushed c) = [] /\
  packet.key (encoder (flushed c)) = packet.key (encoder c) /\
  decoder (flushed c) = decoder c /\
  expectedID (flushed c) = expectedID c /\
  loggedIn (flushed c) = loggedIn c /\
  packQueue (flushed c) = packQueue c /\
  close (flushed c) = close c /\
  packets (flushed c) = packets c /\
  salt (flushed c) = salt c /\
  privateKey (flushed c) = privateKey c.
Proof.
  intros Ho. unfold flushed, Encode, NetConn_Write, batchOf. rewrite Ho.
  destruct (packet.key (encoder c)) as [k|] eqn:K;
    fields; cbn [written closed closeCalls packet.key];
    repeat split; auto.
Qed.

(** A transport that is closed takes no batch. *)
Lemma Flush_closed c :
  closed (conn c) = true ->
  exists e c', Flush c = Ret e c' /\ conn c' = conn c.
Proof.
  intros Hc. unfold Flush. run.
  destruct (bufferedSend c) as [|f fs]; [eexists; eexists; split; reflexivity|].
  unfold Encode, NetConn_Write. rewrite Hc. run.
  eexists; eexists; split; reflexivity.
Qed.

(** Once the close signal is in the channel, [Close] does nothing. *)
Lemma Close_signalled c :
  close c <> 0%nat -> Close c = Ret None c.
Proof.
  intros H. unfold Close. run.
  apply Nat.eqb_neq in H. rewrite H. reflexivity.
Qed.

(** The first [Close] of an open connection: one flush, the close signal,
    the transport closed. *)
Lemma Close_open c :
  close c = 0%nat ->
  closed (conn c) = false ->
  exists c',
    Close c = Ret None c' /\
    written (conn c')
    = written (conn c) ++ match bufferedSend c with
                          | [] => []
                          | _ :: _ => [batchOf c]
                          end /\
    closed (conn c') = true /\
    closeCalls (conn c') = S (closeCalls (conn c)) /\
    close c' = 1%nat /\
    bufferedSend c' = [] /\
    packet.key (encoder c') = packet.key (encoder c) /\
    decoder c' = decoder c /\
    expectedID c' = expectedID c /\
    loggedIn c' = loggedIn c /\
    packQueue c' = packQueue c /\
    packets c' = packets c.
Proof.
  intros H0 Ho. unfold Close. run. rewrite H0. cbn [Nat.eqb negb].
  destruct (bufferedSend c) as [|f fs] eqn:E.
  - rewrite (Flush_empty c E). unfold close_send, NetConn_Close. run.
    rewrite H0. cbn [Nat.ltb Nat.leb]. run. rewrite Ho.
    eexists. split; [reflexivity|]. fields.
    cbn [written closed closeCalls]. rewrite app_nil_r.
    repeat split; auto.
  - assert (Hne : bufferedSend c <> []) by congruence.
    rewrite (Flush_open c Ho Hne).
    destruct (flushed_open c Ho)
      as (Hw & Hcl & Hcc & Hb & Hk & Hd & He & Hli & Hpq & Hclose & Hp & _).
    unfold close_send, NetConn_Close. run.
    rewrite Hclose, H0. cbn [Nat.ltb Nat.leb]. run. rewrite Hcl.
    eexists. split; [reflexivity|]. fields.
    cbn [written closed closeCalls].
    repeat split; auto.
Qed.

End Writing.

(** ** The version check of the login *)

Section Login.

Context (P : Packages).

(** C1, as the code has it.  A Login packet received while the connection
    expects it, whose protocol is not the current one: the connection
    flushes a PlayStatus packet, LoginFailedClient for a lower protocol and
    LoginFailedServer for a higher one, and closes; no handshake packet is
    written and the codec stays as it is.  The expected ID was set to that
    of ClientToServerHandshake on entry to [handleLogin], and it stays
    so. *)
Theorem login_version_mismatch now data frame rest cp req h c :
  loggedIn c = false ->
  (List.length (packets c) < 32)%nat ->
  packets c ++ [data] = frame :: rest ->
  decodes P frame (packet.Login cp req) ->
  expectedID c = IDLogin P ->
  cp <> CurrentProtocol P ->
  Header_Write P (IDPlayStatus P) = Ok h ->
  close c = 0%nat ->
  closed (conn c) = false ->
  exists c',
    handleIncoming P now CasePackets data c = Ret None c' /\
    written (conn c')
    = written (conn c) ++
      [{| frames :=
            bufferedSend c ++
            [h ++ Marshal P
                    (packet.PlayStatus
                       (if cp <? CurrentProtocol P
                        then PlayStatusLoginFailedClient P
                        else PlayStatusLoginFailedServer P))];
          sealed := match packet.key (encoder c) with
                    | Some k => Some (k, packet.counter (encoder c))
                    | None => None
                    end |}] /\
    bufferedSend c' = [] /\
    closed (conn c') = true /\
    closeCalls (conn c') = S (closeCalls (conn c)) /\
    close c' = 1%nat /\
    packet.key (encoder c') = packet.key (encoder c) /\
    decoder c' = decoder c /\
    loggedIn c' = false /\
    expectedID c' = IDClientToServerHandshake P.
Proof.
  intros Hl Hn Hq Hd He Hcp Hh H0 Ho.
  rewrite (handleIncoming_decodes P now data frame rest _ c Hl Hn Hq Hd).
  cbn [ID]. rewrite He, Z.eqb_refl. cbn [negb].
  unfold handleLogin. run.
  apply Z.eqb_neq in Hcp. rewrite Hcp. cbn [negb]. run.
  set (status := if cp >? CurrentProtocol P
                 then PlayStatusLoginFailedServer P
                 else PlayStatusLoginFailedClient P).
  assert (Hs : (if cp <? CurrentProtocol P
                then PlayStatusLoginFailedClient P
                else PlayStatusLoginFailedServer P) = status).
  { subst status. apply Z.eqb_neq in Hcp.
    destruct (Z.ltb_spec cp (CurrentProtocol P));
      destruct (Z.gtb_spec cp (CurrentProtocol P)); try reflexivity; lia. }
  rewrite Hs.
  rewrite (WritePacket_ok P (packet.PlayStatus status) h) by exact Hh.
  match goal with
  | |- context [Close ?c1] =>
      destruct (Close_open c1) as (c' & HC & Hw & Hcl & Hcc & Hcs & Hb & Hk
                                   & Hdc & Hx & Hli & _);
      [exact H0 | exact Ho | ]
  end.
  exists c'. rewrite HC. split; [reflexivity|].
  revert Hw Hk Hdc Hx Hli. unfold batchOf. fields.
  intros Hw Hk Hdc Hx Hli.
  repeat split; auto; try congruence.
  rewrite Hw. destruct (bufferedSend c); reflexivity.
Qed.

End Login.

Lemma login_version_mismatch_witness :
  exists c',
    handleIncoming Toy.packages 0 CasePackets [Byte.x01; Byte.x63] Toy.fresh
    = Ret None c' /\
    written (conn c')
    = [{| frames := [[Byte.x02; Byte.x01]]; sealed := None |}] /\
    bufferedSend c' = [] /\
    closed (conn c') = true /\
    closeCalls (conn c') = 1%nat /\
    close c' = 1%nat /\
    packet.key (encoder c') = None /\
    decoder c' = packet.NewCodec /\
    loggedIn c' = false /\
    expectedID c' = 4.
Proof.
  apply (login_version_mismatch Toy.packages 0 [Byte.x01; Byte.x63]
           [Byte.x01; Byte.x63] [] 99 [] [Byte.x02] Toy.fresh).
  - reflexivity.
  - cbn. lia.
  - reflexivity.
  - exists 1, [Byte.x63]. split; reflexivity.
  - reflexivity.
  - cbn. lia.
  - reflexivity.
  - reflexivity.
  - reflexivity.
Defined.

(** C1, as the claim has it, fails: after a Login with an outdated protocol
    the expected ID is that of ClientToServerHandshake, not that of Login
    any more. *)
Lemma login_version_mismatch_expects_handshake :
  ~ (forall (P : Packages) now data cp req c err c',
        loggedIn c = false ->
        expectedID c = IDLogin P ->
        decodes P data (packet.Login cp req) ->
        cp <> CurrentProtocol P ->
        handleIncoming P now CasePackets data c = Ret err c' ->
        expectedID c' <> IDClientToServerHandshake P).
Proof.
  intros H.
  destruct (handleIncoming Toy.packages 0 CasePackets [Byte.x01; Byte.x63]
              Toy.fresh) as [err c'| |] eqn:Hrun; try discriminate.
  apply (H Toy.packages 0 [Byte.x01; Byte.x63] 99 [] Toy.fresh err c').
  - reflexivity.
  - reflexivity.
  - exists 1, [Byte.x63]. split; reflexivity.
  - cbn. lia.
  - exact Hrun.
  - vm_compute in Hrun. injection Hrun as _ Hc. subst c'. reflexivity.
Qed.

(** ** The end of the login sequence *)

Section PackResponse.

Context (P : Packages).

(** C9.  Once the ClientToServerHandshake is handled the connection has
    written the PlayStatus and the ResourcePacksInfo packets and expects a
    ResourcePackClientResponse; a response Completed that comes next is
    accepted and logs the connection in, with no ResourcePackStack written
    and nothing more sent. *)
Theorem completed_accepted_before_stack now1 now2 d1 d2 ids h1 h2 c :
  loggedIn c = false ->
  packets c = [] ->
  expectedID c = IDClientToServerHandshake P ->
  decodes P d1 packet.ClientToServerHandshake ->
  decodes P d2
    (packet.ResourcePackClientResponse (PackResponseCompleted P) ids) ->
  Header_Write P (IDPlayStatus P) = Ok h1 ->
  Header_Write P (IDResourcePacksInfo P) = Ok h2 ->
  PackResponseCompleted P <> PackResponseRefused P ->
  PackResponseCompleted P <> PackResponseSendPacks P ->
  PackResponseCompleted P <> PackResponseAllPacksDownloaded P ->
  exists c1 c2,
    handleIncoming P now1 CasePackets d1 c = Ret None c1 /\
    expectedID c1 = IDResourcePackClientResponse P /\
    loggedIn c1 = false /\
    bufferedSend c1
    = bufferedSend c ++
      [h1 ++ Marshal P (packet.PlayStatus (PlayStatusLoginSuccess P));
       h2 ++ Marshal P
               (packet.ResourcePacksInfo (texturePacksRequired c)
                  (fst (fst (packsInfo (resourcePacks c))))
                  (snd (fst (packsInfo (resourcePacks c))))
                  (snd (packsInfo (resourcePacks c))))] /\
    handleIncoming P now2 CasePackets d2 c1 = Ret None c2 /\
    loggedIn c2 = true /\
    bufferedSend c2 = bufferedSend c1 /\
    conn c2 = conn c /\
    packQueue c2 = packQueue c.
Proof.
  intros Hl Hp He Hd1 Hd2 Hh1 Hh2 Hr Hs Ha.
  assert (Hn : (List.length (packets c) < 32)%nat) by (rewrite Hp; cbn; lia).
  assert (Hq : packets c ++ [d1] = [d1]) by (rewrite Hp; reflexivity).
  rewrite (handleIncoming_decodes P now1 d1 d1 [] _ c Hl Hn Hq Hd1).
  cbn [ID]. rewrite He, Z.eqb_refl. cbn [negb].
  unfold handleClientToServerHandshake. run.
  rewrite (WritePacket_ok P _ h1) by exact Hh1. run.
  destruct (packsInfo (resourcePacks c)) as [[hs bp] tp].
  rewrite (WritePacket_ok P _ h2) by exact Hh2. run.
  eexists. eexists.
  split; [reflexivity|]. fields.
  split; [reflexivity|]. split; [exact Hl|].
  split; [rewrite <- app_assoc; reflexivity|].
  rewrite (handleIncoming_decodes P now2 d2 d2 [] _ _)
    by (fields; first [exact Hd2 | exact Hl | reflexivity | cbn; lia]).
  fields. cbn [ID]. rewrite Z.eqb_refl. cbn [negb].
  unfold handleResourcePackClientResponse.
  apply Z.eqb_neq in Hr, Hs, Ha. rewrite Hr, Hs, Ha, Z.eqb_refl. run.
  repeat split.
Qed.

End PackResponse.

Lemma completed_accepted_before_stack_witness :
  exists c1 c2,
    handleIncoming Toy.packages 0 CasePackets [Byte.x04]
      (with_expectedID 4 Toy.fresh) = Ret None c1 /\
    expectedID c1 = 8 /\
    loggedIn c1 = false /\
    bufferedSend c1 = [[Byte.x02; Byte.x00]; [Byte.x06]] /\
    handleIncoming Toy.packages 1 CasePackets [Byte.x08; Byte.x04] c1
    = Ret None c2 /\
    loggedIn c2 = true /\
    bufferedSend c2 = bufferedSend c1 /\
    conn c2 = Toy.transport /\
    packQueue c2 = None.
Proof.
  apply (completed_accepted_before_stack Toy.packages 0 1 [Byte.x04]
           [Byte.x08; Byte.x04] [] [Byte.x02] [Byte.x06]
           (with_expectedID 4 Toy.fresh)).
  - reflexivity.
  - reflexivity.
  - reflexivity.
  - exists 4, []. split; reflexivity.
  - exists 8, [Byte.x04]. split; reflexivity.
  - reflexivity.
  - reflexivity.
  - cbn. lia.
  - cbn. lia.
  - cbn. lia.
Defined.

(** ** [Close] and the flush worker *)

(** X6.  One call after the other, [Close] is idempotent: the second call
    finds the close signal in the channel, returns nil and leaves the
    connection as the first call left it. *)
Lemma Close_twice c e c' :
  close c = 0%nat ->
  Close c = Ret e c' ->
  Close c' = Ret None c'.
Proof.
  intros H0 H. apply Close_signalled.
  revert H. unfold Close. run. rewrite H0. cbn [Nat.eqb negb].
  destruct (Flush c) as [e1 c1| |] eqn:EF; try discriminate.
  assert (Hc1 : close c1 = close c).
  { revert EF. unfold Flush. run.
    destruct (bufferedSend c); [intros [= _ <-]; reflexivity|].
    destruct (Encode _ _ _) as [[[e2|] enc] t]; run;
      intros [= _ <-]; reflexivity. }
  unfold close_send, NetConn_Close. run. rewrite Hc1, H0.
  cbn [Nat.ltb Nat.leb]. run.
  intros [= _ <-]. fields. discriminate.
Qed.

(** C8 fails on the code when the flush worker runs between two calls.  The
    first [Close] flushes, signals and closes the transport.  The worker
    then receives the close signal, which empties the channel, and before
    it sends the signal again a second [Close] finds the channel empty: it
    flushes again, closes the transport a second time and returns the
    error of the transport.  The worker is left blocked on its send. *)
Theorem Close_again_while_worker_resends :
  exists c1 c1' c2 c3 n,
    Close (with_bufferedSend [[Byte.x01]] Toy.fresh) = Ret None c1 /\
    closeCalls (conn c1) = 1%nat /\
    Write [Byte.x02] c1 = Ret (n, None) c1' /\
    worker_step CaseCloseSignal AtSelect c1' = Ret AtResend c2 /\
    close c2 = 0%nat /\
    Close c2 = Ret (Some ErrClosedNetConn) c3 /\
    closeCalls (conn c3) = 2%nat /\
    worker_step CaseTick AtResend c3 = Block.
Proof.
  do 5 eexists.
  split; [vm_compute; reflexivity|].
  split; [reflexivity|].
  split; [vm_compute; reflexivity|].
  split; [vm_compute; reflexivity|].
  split; [reflexivity|].
  split; [vm_compute; reflexivity|].
  split; reflexivity.
Qed.

(** ** The read deadline *)

(** A deadline before the clock is refused, and the connection is as it
    was. *)
Lemma SetReadDeadline_past now now' t c :
  t < now ->
  SetReadDeadline now now' t c
  = Ret (Some (Errorf "error setting read deadline: time passed is before time.Now()" [])) c.
Proof.
  intros H. unfold SetReadDeadline, Time.Before.
  apply Z.ltb_lt in H. rewrite H. reflexivity.
Qed.

(** A deadline that is not before the clock, and not the zero time, arms a
    timer that fires at the deadline. *)
Lemma SetReadDeadline_future now now' t c :
  now <= t ->
  t <> Time.zero ->
  Time.minDuration <= t - now' <= Time.maxDuration ->
  SetReadDeadline now now' t c
  = Ret None (with_readDeadline (Time.FiresAt t) c).
Proof.
  intros H Hz Hd. unfold SetReadDeadline, Time.Before.
  apply Z.ltb_ge in H. rewrite H.
  apply Z.eqb_neq in Hz. rewrite Hz. run.
  unfold Time.After, Time.Sub.
  replace (now' + Z.max Time.minDuration (Z.min Time.maxDuration (t - now')))
    with t by lia.
  reflexivity.
Qed.

(** The branch that clears the deadline is taken only by a clock that is not
    after the zero time; it arms a timer a million hours ahead. *)
Lemma SetReadDeadline_clears now now' c :
  now <= Time.zero ->
  SetReadDeadline now now' Time.zero c
  = Ret None
      (with_readDeadline (Time.FiresAt (now' + Time.Hour * 1000000)) c).
Proof.
  intros H. unfold SetReadDeadline, Time.Before.
  apply Z.ltb_ge in H. rewrite H. reflexivity.
Qed.

(** C4 fails on the code for the zero time.  Whenever the clock is after
    January 1 of the year 1, [SetReadDeadline(time.Time{})] returns the
    error of a deadline in the past and leaves the deadline as it was. *)
Theorem SetReadDeadline_zero_time_refused now now' c :
  Time.zero < now ->
  exists e c',
    SetReadDeadline now now' Time.zero c = Ret (Some e) c' /\
    readDeadline c' = readDeadline c.
Proof.
  intros H. rewrite (SetReadDeadline_past now now' Time.zero c H).
  eexists. eexists. split; reflexivity.
Qed.

Lemma SetReadDeadline_zero_time_refused_witness :
  exists e c',
    SetReadDeadline Time.unixEpoch Time.unixEpoch Time.zero
      (with_readDeadline (Time.FiresAt 5) Toy.fresh) = Ret (Some e) c' /\
    readDeadline c' = Time.FiresAt 5.
Proof.
  apply (SetReadDeadline_zero_time_refused Time.unixEpoch Time.unixEpoch
           (with_readDeadline (Time.FiresAt 5) Toy.fresh)).
  reflexivity.
Defined.

(** ** The resource pack download *)

Section Download.

Context (P : Packages).

(** C5, as the code has it.  A chunk request for another pack than the
    current one, or for another chunk than the one at the current offset,
    returns an error and leaves the whole connection as it was: no chunk
    data is written, and the offset and the expected ID are the same.  When
    the pack is the right one the error reports the chunk index expected,
    the current offset divided by the chunk size, and the one received;
    when the pack is another one the error reports the UUID expected and
    the one received, and no index. *)
Theorem chunk_request_mismatch_rejected uuid idx q p c :
  packQueue c = Some q ->
  currentPack q = Some p ->
  - 2 ^ 31 <= idx < 2 ^ 32 ->
  resource.UUID p <> uuid \/ idx * 524288 <> currentOffset q ->
  exists e,
    handleResourcePackChunkRequest P uuid idx c = Ret (Some e) c /\
    (resource.UUID p = uuid ->
     e = Errorf "resource pack chunk request had unexpected chunk index: expected %v, but got %v"
           [VInt (Z.quot (currentOffset q) 524288); VInt idx]) /\
    (resource.UUID p <> uuid ->
     e = Errorf "resource pack chunk request had unexpected UUID: expected %v, but got %v"
           [VStr (resource.UUID p); VStr uuid]).
Proof.
  intros Hq Hp Hidx Hbad.
  unfold handleResourcePackChunkRequest. run. rewrite Hq, Hp.
  destruct (String.eqb (resource.UUID p) uuid) eqn:Eu; cbn [negb].
  - apply String.eqb_eq in Eu.
    destruct Hbad as [Hbad|Hbad]; [congruence|].
    rewrite wrap64_small by (unfold packChunkSize; lia).
    replace (currentOffset q =? idx * packChunkSize) with false
      by (symmetry; apply Z.eqb_neq; unfold packChunkSize; lia).
    cbn [negb]. eexists. split; [reflexivity|].
    split; [intros _; reflexivity | intros E; congruence].
  - apply String.eqb_neq in Eu.
    eexists. split; [reflexivity|].
    split; [intros E; congruence | intros _; reflexivity].
Qed.

Lemma packChunkSize_eq : packChunkSize = 524288.
Proof. reflexivity. Qed.

Lemma firstn_length_app {A} (l l' : list A) :
  firstn (List.length l) (l ++ l') = l.
Proof.
  induction l as [|a l IH]; cbn; [destruct l'; reflexivity|].
  now rewrite IH.
Qed.

Lemma length_make n : List.length (make n) = Z.to_nat n.
Proof. unfold make. apply repeat_length. Qed.

(** A read of a whole chunk that the pack still holds: no end of stream. *)
Lemma ReadAt_whole p off :
  0 <= off ->
  off + packChunkSize <= resource.Len p ->
  let got := firstn (Z.to_nat packChunkSize)
               (skipn (Z.to_nat off) (resource.content p)) in
  resource.ReadAt p (make packChunkSize) off = (got, packChunkSize, None) /\
  Z.of_nat (List.length got) = packChunkSize.
Proof.
  intros Hoff Hlen got. unfold resource.ReadAt, resource.Len in *.
  rewrite length_make. fold got.
  assert (Hg : List.length got = Z.to_nat packChunkSize).
  { subst got. rewrite length_firstn, length_skipn.
    rewrite packChunkSize_eq in *. lia. }
  rewrite Hg, Nat.ltb_irrefl.
  rewrite skipn_all2 by (rewrite length_make; lia).
  rewrite app_nil_r.
  rewrite packChunkSize_eq in *. split; [f_equal; f_equal|]; lia.
Qed.

(** A read that runs over the end of the pack: the rest of the pack and the
    end of stream. *)
Lemma ReadAt_rest p off :
  0 <= off <= resource.Len p ->
  resource.Len p < off + packChunkSize ->
  let got := firstn (Z.to_nat packChunkSize)
               (skipn (Z.to_nat off) (resource.content p)) in
  exists Data n,
    resource.ReadAt p (make packChunkSize) off = (Data, n, Some EOF) /\
    firstn (Z.to_nat n) Data = got /\
    Z.of_nat (List.length got) = resource.Len p - off.
Proof.
  intros Hoff Hlen got. unfold resource.ReadAt, resource.Len in *.
  rewrite length_make. fold got.
  assert (Hg : Z.of_nat (List.length got)
               = Z.of_nat (List.length (resource.content p)) - off).
  { subst got. rewrite length_firstn, length_skipn.
    rewrite packChunkSize_eq in *. lia. }
  replace (List.length got <? Z.to_nat packChunkSize)%nat with true
    by (symmetry; apply Nat.ltb_lt; rewrite packChunkSize_eq in *; lia).
  eexists. eexists. split; [reflexivity|].
  rewrite Nat2Z.id, firstn_length_app. split; [reflexivity|exact Hg].
Qed.

(** The start of a chunk request that matches the current pack and offset:
    the offset moves on by one chunk before the pack is read. *)
Lemma chunk_request_matches k q p c :
  packQueue c = Some q ->
  currentPack q = Some p ->
  0 <= k ->
  currentOffset q = k * packChunkSize ->
  k * packChunkSize + packChunkSize < 2 ^ 63 ->
  handleResourcePackChunkRequest P (resource.UUID p) k c
  = let c1 := with_packQueue
                (Some {| packs := packs q;
                         packsToDownload := packsToDownload q;
                         currentPack := Some p;
                         currentOffset := (k + 1) * packChunkSize |}) c in
    match resource.ReadAt p (make packChunkSize) (k * packChunkSize) with
    | (Data, n, Some EOF) =>
        match WritePacket P
                (packet.ResourcePackChunkData (resource.UUID p) k
                   (k * packChunkSize) (firstn (Z.to_nat n) Data)) c1 with
        | Ret err c2 =>
            match afterLastChunk P c2 with
            | Ret _ c3 =>
                Ret match err with
                    | Some e =>
                        Some (Errorf "error writing resource pack chunk data packet: %v" [VErr e])
                    | None => None
                    end c3
            | Block => Block
            | Panic => Panic
            end
        | Block => Block
        | Panic => Panic
        end
    | (Data, n, Some err) =>
        Ret (Some (Errorf "error reading resource pack chunk: %v" [VErr err])) c1
    | (Data, n, None) =>
        match WritePacket P
                (packet.ResourcePackChunkData (resource.UUID p) k
                   (k * packChunkSize) Data) c1 with
        | Ret err c2 =>
            Ret match err with
                | Some e =>
                    Some (Errorf "error writing resource pack chunk data packet: %v" [VErr e])
                | None => None
                end c2
        | Block => Block
        | Panic => Panic
        end
    end.
Proof.
  intros Hq Hp Hk Hoff Hmax.
  unfold handleResourcePackChunkRequest. run. rewrite Hq, Hp.
  rewrite String.eqb_refl. cbn [negb].
  assert (HC : 0 < packChunkSize) by (rewrite packChunkSize_eq; lia).
  rewrite wrap64_small by nia.
  rewrite Hoff, Z.eqb_refl. cbn [negb].
  rewrite wrap64_small by nia.
  replace (k * packChunkSize + packChunkSize) with ((k + 1) * packChunkSize)
    by ring.
  destruct (resource.ReadAt p (make packChunkSize) (k * packChunkSize))
    as [[Data n] [err|]].
  - destruct err; run; try reflexivity.
    destruct (WritePacket P _ _) as [err c2| |]; try reflexivity.
    destruct (afterLastChunk P c2) as [u c3| |]; try reflexivity.
    destruct err; reflexivity.
  - run. destruct (WritePacket P _ _) as [err c2| |]; try reflexivity.
    destruct err; reflexivity.
Qed.

(** C6.  For a pack whose size is not a multiple of 524,288 and a request
    for the chunk at the current offset: a chunk that is not the last one
    is written with exactly 524,288 bytes and the expected ID stays; the
    last one is written with exactly size mod 524,288 bytes, and then, when
    no requested pack is left, the expected ID becomes that of
    ResourcePackClientResponse, and otherwise the data info of the next
    pack is written after the chunk and the expected ID is that of
    ResourcePackChunkRequest. *)
Theorem chunk_sizes_and_last_chunk k q p h c :
  packQueue c = Some q ->
  currentPack q = Some p ->
  resource.Len p mod 524288 <> 0 ->
  0 <= k ->
  currentOffset q = k * 524288 ->
  k * 524288 <= resource.Len p ->
  resource.Len p < 2 ^ 62 ->
  Header_Write P (IDResourcePackChunkData P) = Ok h ->
  let data := firstn (Z.to_nat packChunkSize)
                (skipn (Z.to_nat (k * packChunkSize)) (resource.content p)) in
  let chunk := h ++ Marshal P
                      (packet.ResourcePackChunkData (resource.UUID p) k
                         (k * packChunkSize) data) in
  ((k + 1) * 524288 < resource.Len p ->
   Z.of_nat (List.length data) = 524288 /\
   exists c',
     handleResourcePackChunkRequest P (resource.UUID p) k c = Ret None c' /\
     bufferedSend c' = bufferedSend c ++ [chunk] /\
     expectedID c' = expectedID c /\
     loggedIn c' = loggedIn c /\
     packQueue c'
     = Some {| packs := packs q; packsToDownload := packsToDownload q;
               currentPack := Some p;
               currentOffset := (k + 1) * packChunkSize |}) /\
  (resource.Len p < (k + 1) * 524288 ->
   Z.of_nat (List.length data) = resource.Len p mod 524288 /\
   (packsToDownload q = [] ->
    exists c',
      handleResourcePackChunkRequest P (resource.UUID p) k c = Ret None c' /\
      bufferedSend c' = bufferedSend c ++ [chunk] /\
      expectedID c' = IDResourcePackClientResponse P /\
      loggedIn c' = loggedIn c) /\
   (forall next more h',
      packsToDownload q = next :: more ->
      Header_Write P (IDResourcePackDataInfo P) = Ok h' ->
      exists c',
        handleResourcePackChunkRequest P (resource.UUID p) k c = Ret None c' /\
        bufferedSend c'
        = bufferedSend c ++
          [chunk;
           h' ++ Marshal P
                   (packet.ResourcePackDataInfo (resource.UUID next)
                      (resource.Version next) (resource.Len next)
                      packChunkSize
                      ((resource.Len next + packChunkSize - 1) / packChunkSize)
                      (Checksum P next))] /\
        expectedID c' = IDResourcePackChunkRequest P /\
        loggedIn c' = loggedIn c /\
        packQueue c'
        = Some {| packs := packs q; packsToDownload := more;
                  currentPack := Some next; currentOffset := 0 |})).
Proof.
  intros Hq Hp Hmod Hk Hoff Hle Hmax Hh data chunk.
  rewrite <- packChunkSize_eq in Hoff.
  assert (HC : packChunkSize = 524288) by reflexivity.
  assert (Hrun := chunk_request_matches k q p c Hq Hp Hk Hoff
                    ltac:(rewrite HC; lia)).
  cbv zeta in Hrun.
  split.
  - intros Hnot.
    destruct (ReadAt_whole p (k * packChunkSize)) as [HR Hlen];
      [rewrite HC; lia | rewrite HC; lia |].
    fold data in HR, Hlen.
    split; [rewrite <- HC; exact Hlen|].
    rewrite HR in Hrun.
    rewrite (WritePacket_ok P _ h) in Hrun by exact Hh.
    eexists. split; [exact Hrun|]. fields. repeat split.
  - intros Hlast.
    destruct (ReadAt_rest p (k * packChunkSize)) as (Data & n & HR & HD & Hlen);
      [rewrite HC; lia | rewrite HC; lia |].
    fold data in HD, Hlen.
    split.
    { rewrite Hlen, HC.
      apply Z.mod_unique_pos with (q := k); lia. }
    rewrite HR, HD in Hrun. fold chunk in Hrun.
    rewrite (WritePacket_ok P _ h) in Hrun by exact Hh.
    unfold afterLastChunk in Hrun. revert Hrun. run.
    unfold AllDownloaded. cbn [packsToDownload currentPack currentOffset].
    intros Hrun. split.
    + intros Hnil. rewrite Hnil in Hrun.
      replace (resource.Len p <=? (k + 1) * packChunkSize) with true in Hrun
        by (symmetry; apply Z.leb_le; rewrite HC; lia).
      cbn [negb] in Hrun. revert Hrun. run. intros Hrun.
      eexists. split; [exact Hrun|]. fields. repeat split.
    + intros next more h' Hcons Hh'. rewrite Hcons in Hrun.
      cbn [negb] in Hrun. revert Hrun.
      unfold nextResourcePackDownload, NextPack. run.
      cbn [packsToDownload packs]. run.
      rewrite (WritePacket_ok P _ h') by exact Hh'. run.
      intros Hrun.
      eexists. split; [exact Hrun|]. fields.
      split; [rewrite <- app_assoc; reflexivity|].
      repeat split.
Qed.

End Download.

Lemma chunk_request_mismatch_rejected_witness :
  exists e,
    handleResourcePackChunkRequest Toy.packages "p3" 2 (Toy.sending Toy.queue3)
    = Ret (Some e) (Toy.sending Toy.queue3) /\
    (resource.UUID Toy.pack3 = "p3"%string ->
     e = Errorf "resource pack chunk request had unexpected chunk index: expected %v, but got %v"
           [VInt (Z.quot (currentOffset Toy.queue3) 524288); VInt 2]) /\
    (resource.UUID Toy.pack3 <> "p3"%string ->
     e = Errorf "resource pack chunk request had unexpected UUID: expected %v, but got %v"
           [VStr (resource.UUID Toy.pack3); VStr "p3"]).
Proof.
  apply (chunk_request_mismatch_rejected Toy.packages "p3" 2 Toy.queue3
           Toy.pack3 (Toy.sending Toy.queue3)).
  - reflexivity.
  - reflexivity.
  - lia.
  - right. cbn. lia.
Defined.

(** C5, as the claim has it, fails: a request for a pack with another UUID
    than the current one is refused with an error that reports the two
    UUIDs, not the chunk index expected and the one received. *)
Lemma chunk_request_other_uuid_reports_no_index :
  ~ (forall (P : Packages) uuid idx q p c,
        packQueue c = Some q ->
        currentPack q = Some p ->
        - 2 ^ 31 <= idx < 2 ^ 32 ->
        resource.UUID p <> uuid \/ idx * 524288 <> currentOffset q ->
        handleResourcePackChunkRequest P uuid idx c
        = Ret (Some (Errorf "resource pack chunk request had unexpected chunk index: expected %v, but got %v"
                       [VInt (Z.quot (currentOffset q) 524288); VInt idx]))
            c).
Proof.
  intros H.
  specialize (H Toy.packages "zz"%string 0 Toy.queue3 Toy.pack3
                (Toy.sending Toy.queue3) eq_refl eq_refl).
  assert (Hrun : handleResourcePackChunkRequest Toy.packages "zz" 0
                   (Toy.sending Toy.queue3)
                 = Ret (Some (Errorf "resource pack chunk request had unexpected UUID: expected %v, but got %v"
                                [VStr "p3"; VStr "zz"]))
                     (Toy.sending Toy.queue3)) by reflexivity.
  rewrite Hrun in H.
  assert (Hfalse : Ret (Some (Errorf "resource pack chunk request had unexpected UUID: expected %v, but got %v"
                                [VStr "p3"; VStr "zz"]))
                     (Toy.sending Toy.queue3)
                   = Ret (Some (Errorf "resource pack chunk request had unexpected chunk index: expected %v, but got %v"
                                  [VInt (Z.quot (currentOffset Toy.queue3) 524288);
                                   VInt 0]))
                       (Toy.sending Toy.queue3)).
  { apply H; [lia | left; discriminate]. }
  discriminate Hfalse.
Qed.

Lemma chunk_sizes_and_last_chunk_witness :
  exists c',
    handleResourcePackChunkRequest Toy.packages "p3" 0
      (Toy.sending Toy.queue3) = Ret None c' /\
    bufferedSend c' = [[Byte.x53; Byte.x00; Byte.x01; Byte.x02; Byte.x03]] /\
    expectedID c' = 8 /\
    loggedIn c' = false.
Proof.
  destruct (chunk_sizes_and_last_chunk Toy.packages 0 Toy.queue3 Toy.pack3
              [Byte.x53] (Toy.sending Toy.queue3)) as [_ Hlast].
  - reflexivity.
  - reflexivity.
  - vm_compute. discriminate.
  - lia.
  - reflexivity.
  - vm_compute. discriminate.
  - vm_compute. reflexivity.
  - reflexivity.
  - destruct Hlast as [_ [Hnil _]]; [vm_compute; reflexivity|].
    destruct (Hnil eq_refl) as (c' & Hrun & Hb & He & Hl).
    exists c'. split; [exact Hrun|].
    split; [rewrite Hb; vm_compute; reflexivity|].
    split; [exact He | exact Hl].
Defined.

(** ** The encryption handshake *)

Section Encryption.

Context (P : Packages).

(** [Flush] always returns, and whether it reaches the transport or not it
    leaves the mode of the codec, the key pair and the salt alone. *)
Lemma Flush_returns c :
  exists e c',
    Flush c = Ret e c' /\
    packet.key (encoder c') = packet.key (encoder c) /\
    decoder c' = decoder c /\
    salt c' = salt c /\
    privateKey c' = privateKey c.
Proof.
  unfold Flush. run.
  destruct (bufferedSend c) as [|f fs].
  - eexists. eexists. split; [reflexivity|]. repeat split.
  - unfold Encode, NetConn_Write.
    destruct (closed (conn c)); run.
    + eexists. eexists. split; [reflexivity|]. repeat split.
    + eexists. eexists. split; [reflexivity|]. fields.
      destruct (packet.key (encoder c)) eqn:K; cbn [packet.key];
        repeat split; auto.
Qed.

(** The handshake on a connection whose transport is open and whose codec
    is in plaintext mode. *)
Lemma enableEncryption_ok clientKey der serverJWT h c :
  MarshalPKIXPublicKey P (ecdsa.Public (privateKey c)) = Ok der ->
  jwt_New P
    {| jwt.Algorithm := "ES384";
       jwt.X5U := Base64.EncodeToString Base64.StdEncoding der |}
    [("salt"%string, Base64.EncodeToString Base64.RawStdEncoding (salt c))]
    (privateKey c) = Ok serverJWT ->
  Header_Write P (IDServerToClientHandshake P) = Ok h ->
  closed (conn c) = false ->
  packet.key (encoder c) = None ->
  packet.key (decoder c) = None ->
  exists c',
    enableEncryption P clientKey c = Ret None c' /\
    written (conn c')
    = written (conn c) ++
      [{| frames :=
            bufferedSend c ++
            [h ++ Marshal P (packet.ServerToClientHandshake serverJWT)];
          sealed := None |}] /\
    bufferedSend c' = [] /\
    closed (conn c') = false /\
    encoder c'
    = {| packet.key :=
           Some (Sum256 P
                   (salt c ++
                    Big.Bytes
                      (fst (elliptic.ScalarMult (ecdsa.Curve clientKey)
                              (ecdsa.X clientKey) (ecdsa.Y clientKey)
                              (Big.Bytes (ecdsa.D (privateKey c)))))));
         packet.counter := 0 |} /\
    decoder c' = encoder c' /\
    expectedID c' = expectedID c /\
    loggedIn c' = loggedIn c /\
    close c' = close c.
Proof.
  intros Hder Hjwt Hh Ho Hke Hkd.
  unfold enableEncryption, MarshalPublicKey. run.
  rewrite Hder, Hjwt.
  rewrite (WritePacket_ok P _ h) by exact Hh. run.
  match goal with
  | |- context [Flush ?c1] =>
      rewrite (Flush_open c1)
        by (fields; first [exact Ho | now destruct (bufferedSend c)]);
      destruct (flushed_open c1 Ho)
        as (Hw & Hcl & Hcc & Hb & Hk & Hd & He & Hli & Hpq & Hclose & Hp & Hs & Hpk);
      revert Hw Hcl Hcc Hb Hk Hd He Hli Hpq Hclose Hp Hs Hpk;
      generalize (flushed c1)
  end.
  unfold batchOf. fields. rewrite Hke.
  intros c2 Hw Hcl Hcc Hb Hk Hd He Hli Hpq Hclose Hp Hs Hpk.
  destruct (elliptic.ScalarMult _ _ _ _) as [x y]. run.
  eexists. split; [reflexivity|]. fields.
  unfold packet.EnableEncryption. rewrite Hk, Hd, Hkd.
  cbn [fst]. repeat split; auto.
Qed.

(** C2, as the code has it.  After a Login that passes every check, on an
    open connection in plaintext mode: the token is made of the header
    {ES384, base64 of the DER of the public key} and the payload {salt:
    the salt in unpadded base64 of the standard alphabet}; it is written
    in a ServerToClientHandshake packet and flushed in a batch that is not
    sealed; after that both halves of the codec are in encrypted mode. *)
Theorem login_sends_handshake_then_encrypts
  now data frame rest cp req clientKey idd cd der serverJWT h c :
  loggedIn c = false ->
  (List.length (packets c) < 32)%nat ->
  packets c ++ [data] = frame :: rest ->
  decodes P frame (packet.Login cp req) ->
  expectedID c = IDLogin P ->
  cp = CurrentProtocol P ->
  Verify P req = Ok (clientKey, true) ->
  Decode P req = Ok (idd, cd) ->
  IdentityData_Validate P idd = None ->
  ClientData_Validate P cd = None ->
  MarshalPKIXPublicKey P (ecdsa.Public (privateKey c)) = Ok der ->
  jwt_New P
    {| jwt.Algorithm := "ES384";
       jwt.X5U := Base64.EncodeToString Base64.StdEncoding der |}
    [("salt"%string, Base64.EncodeToString Base64.RawStdEncoding (salt c))]
    (privateKey c) = Ok serverJWT ->
  Header_Write P (IDServerToClientHandshake P) = Ok h ->
  closed (conn c) = false ->
  packet.key (encoder c) = None ->
  packet.key (decoder c) = None ->
  exists c' k,
    handleIncoming P now CasePackets data c = Ret None c' /\
    written (conn c')
    = written (conn c) ++
      [{| frames :=
            bufferedSend c ++
            [h ++ Marshal P (packet.ServerToClientHandshake serverJWT)];
          sealed := None |}] /\
    bufferedSend c' = [] /\
    packet.key (encoder c') = Some k /\
    packet.key (decoder c') = Some k /\
    expectedID c' = IDClientToServerHandshake P.
Proof.
  intros Hl Hn Hq Hd He Hcp Hv Hdec Hiv Hcv Hder Hjwt Hh Ho Hke Hkd.
  rewrite (handleIncoming_decodes P now data frame rest _ c Hl Hn Hq Hd).
  cbn [ID]. rewrite He, Z.eqb_refl. cbn [negb].
  unfold handleLogin. run.
  subst cp. rewrite Z.eqb_refl. cbn [negb].
  rewrite Hv. cbn [negb]. rewrite Hdec, Hiv, Hcv. run.
  match goal with
  | |- context [enableEncryption P clientKey ?c1] =>
      destruct (enableEncryption_ok clientKey der serverJWT h c1)
        as (c' & Hrun & Hw & Hb & Hcl & Henc & Hdc & Hx & _);
      try assumption
  end.
  rewrite Hrun. run.
  eexists. eexists. split; [reflexivity|].
  revert Hw Henc Hdc Hx. fields. intros Hw Henc Hdc Hx.
  rewrite Hdc, Henc.
  repeat split; auto.
Qed.

(** C3.  When the handshake goes through, both halves of the codec hold the
    same key, and the key is exactly the SHA-256 of the salt followed by
    [x.Bytes()], for [x] the X coordinate of the product of the client's
    public point by [D.Bytes()], the bytes of the private scalar.  The
    bytes of the coordinate and of the scalar are big-endian, and those of
    the coordinate are the shortest such slice: they start with no zero
    byte and are not padded to the width of the curve. *)
Theorem shared_key_is_hash_of_salt_and_x clientKey der serverJWT h c :
  MarshalPKIXPublicKey P (ecdsa.Public (privateKey c)) = Ok der ->
  jwt_New P
    {| jwt.Algorithm := "ES384";
       jwt.X5U := Base64.EncodeToString Base64.StdEncoding der |}
    [("salt"%string, Base64.EncodeToString Base64.RawStdEncoding (salt c))]
    (privateKey c) = Ok serverJWT ->
  Header_Write P (IDServerToClientHandshake P) = Ok h ->
  packet.key (encoder c) = None ->
  packet.key (decoder c) = None ->
  exists c' scalar x y sharedX,
    enableEncryption P clientKey c = Ret None c' /\
    Big.of_bytes scalar = Z.abs (ecdsa.D (privateKey c)) /\
    elliptic.ScalarMult (ecdsa.Curve clientKey)
      (ecdsa.X clientKey) (ecdsa.Y clientKey) scalar = (x, y) /\
    Big.of_bytes sharedX = Z.abs x /\
    packet.key (encoder c') = Some (Sum256 P (salt c ++ sharedX)) /\
    packet.key (decoder c') = Some (Sum256 P (salt c ++ sharedX)) /\
    scalar = Big.Bytes (ecdsa.D (privateKey c)) /\
    sharedX = Big.Bytes x /\
    (forall d l, sharedX = d :: l -> byte_to_Z d <> 0).
Proof.
  intros Hder Hjwt Hh Hke Hkd.
  unfold enableEncryption, MarshalPublicKey. run.
  rewrite Hder, Hjwt.
  rewrite (WritePacket_ok P _ h) by exact Hh. run.
  match goal with
  | |- context [Flush ?c1] =>
      destruct (Flush_returns c1) as (e & c2 & HF & Hk & Hd & _);
      rewrite HF; revert Hk Hd
  end.
  fields. intros Hk Hd.
  destruct (elliptic.ScalarMult _ _ _ _) as [x y] eqn:Esm. run.
  exists (with_decoder
            (packet.EnableEncryption
               (Sum256 P (salt c ++ Big.Bytes x)) (decoder c2))
            (with_encoder
               (packet.EnableEncryption
                  (Sum256 P (salt c ++ Big.Bytes x)) (encoder c2)) c2)).
  exists (Big.Bytes (ecdsa.D (privateKey c))), x, y, (Big.Bytes x).
  split; [reflexivity|].
  split; [apply BigFacts.of_bytes_Bytes|].
  split; [exact Esm|].
  split; [apply BigFacts.of_bytes_Bytes|].
  fields. unfold packet.EnableEncryption. rewrite Hk, Hd, Hke, Hkd.
  split; [reflexivity|]. split; [reflexivity|].
  split; [reflexivity|]. split; [reflexivity|].
  intros d l. apply BigFacts.Bytes_no_leading_zero.
Qed.

End Encryption.

Lemma login_sends_handshake_then_encrypts_witness :
  exists c' k,
    handleIncoming Toy.packages 0 CasePackets
      [Byte.x01; Byte.x64; Byte.x01] Toy.fresh = Ret None c' /\
    written (conn c')
    = written (conn Toy.fresh) ++
      [{| frames :=
            bufferedSend Toy.fresh ++
            [[Byte.x03] ++
             Marshal Toy.packages
               (packet.ServerToClientHandshake
                  (list_byte_of_string
                     "ES384AwQ=salt/////////////////////w"))];
          sealed := None |}] /\
    bufferedSend c' = [] /\
    packet.key (encoder c') = Some k /\
    packet.key (decoder c') = Some k /\
    expectedID c' = IDClientToServerHandshake Toy.packages.
Proof.
  apply (login_sends_handshake_then_encrypts Toy.packages 0
           [Byte.x01; Byte.x64; Byte.x01] [Byte.x01; Byte.x64; Byte.x01] []
           100 [Byte.x01]
           {| ecdsa.Curve := Toy.curve; ecdsa.X := 5; ecdsa.Y := 7 |}
           tt tt [Byte.x03; Byte.x04]
           (list_byte_of_string "ES384AwQ=salt/////////////////////w")
           [Byte.x03] Toy.fresh).
  - reflexivity.
  - cbn. lia.
  - reflexivity.
  - exists 1, [Byte.x64; Byte.x01]. split; reflexivity.
  - reflexivity.
  - reflexivity.
  - reflexivity.
  - reflexivity.
  - reflexivity.
  - reflexivity.
  - reflexivity.
  - vm_compute. reflexivity.
  - reflexivity.
  - reflexivity.
  - reflexivity.
  - reflexivity.
Defined.

Lemma shared_key_is_hash_of_salt_and_x_witness :
  exists c' scalar x y sharedX,
    enableEncryption Toy.packages
      {| ecdsa.Curve := Toy.curve; ecdsa.X := 5; ecdsa.Y := 7 |} Toy.fresh
    = Ret None c' /\
    Big.of_bytes scalar = Z.abs (ecdsa.D (privateKey Toy.fresh)) /\
    elliptic.ScalarMult Toy.curve 5 7 scalar = (x, y) /\
    Big.of_bytes sharedX = Z.abs x /\
    packet.key (encoder c')
    = Some (Sum256 Toy.packages (salt Toy.fresh ++ sharedX)) /\
    packet.key (decoder c')
    = Some (Sum256 Toy.packages (salt Toy.fresh ++ sharedX)) /\
    scalar = Big.Bytes (ecdsa.D (privateKey Toy.fresh)) /\
    sharedX = Big.Bytes x /\
    (forall d l, sharedX = d :: l -> byte_to_Z d <> 0).
Proof.
  apply (shared_key_is_hash_of_salt_and_x Toy.packages
           {| ecdsa.Curve := Toy.curve; ecdsa.X := 5; ecdsa.Y := 7 |}
           [Byte.x03; Byte.x04]
           (list_byte_of_string "ES384AwQ=salt/////////////////////w")
           [Byte.x03] Toy.fresh).
  - reflexivity.
  - vm_compute. reflexivity.
  - reflexivity.
  - reflexivity.
  - reflexivity.
Defined.

(** The two alphabets differ on a salt of sixteen bytes 0xff. *)
Example salt_std_vs_url :
  Base64.EncodeToString Base64.RawStdEncoding Toy.salt16
  = "/////////////////////w"%string /\
  Base64.EncodeToString Base64.RawURLEncoding Toy.salt16
  = "_____________________w"%string.
Proof. split; vm_compute; reflexivity. Qed.

(** C2, as the claim has it, fails: the salt in the payload of the token is
    not in the URL alphabet.  On the toy packages, whose token spells out its
    payload, the handshake that is flushed is not the one a payload
    {salt: base64url_nopad(salt)} would give. *)
Lemma handshake_salt_is_not_base64url :
  ~ (forall (P : Packages) clientKey c c',
        closed (conn c) = false ->
        packet.key (encoder c) = None ->
        packet.key (decoder c) = None ->
        enableEncryption P clientKey c = Ret None c' ->
        exists der serverJWT h,
          MarshalPKIXPublicKey P (ecdsa.Public (privateKey c)) = Ok der /\
          jwt_New P
            {| jwt.Algorithm := "ES384";
               jwt.X5U := Base64.EncodeToString Base64.StdEncoding der |}
            [("salt"%string,
              Base64.EncodeToString Base64.RawURLEncoding (salt c))]
            (privateKey c) = Ok serverJWT /\
          Header_Write P (IDServerToClientHandshake P) = Ok h /\
          written (conn c')
          = written (conn c) ++
            [{| frames :=
                  bufferedSend c ++
                  [h ++ Marshal P (packet.ServerToClientHandshake serverJWT)];
                sealed := None |}]).
Proof.
  intros H.
  destruct (enableEncryption Toy.packages
              {| ecdsa.Curve := Toy.curve; ecdsa.X := 5; ecdsa.Y := 7 |}
              Toy.fresh) as [[e|] c'| |] eqn:Hrun; try discriminate.
  destruct (H Toy.packages _ Toy.fresh c' eq_refl eq_refl eq_refl Hrun)
    as (der & serverJWT & h & Hder & Hjwt & Hh & Hw).
  vm_compute in Hrun. injection Hrun as Hc. subst c'.
  vm_compute in Hder. injection Hder as <-.
  vm_compute in Hjwt. injection Hjwt as <-.
  vm_compute in Hh. injection Hh as <-.
  vm_compute in Hw. discriminate Hw.
Qed.

(** * Further properties of the connection *)

(** ** The send buffer *)

Section SendBuffer.

Context (P : Packages).

Lemma each_WritePacket hdr pks :
  (forall pk, In pk pks -> Header_Write P (ID P pk) = Ok (hdr pk)) ->
  forall c,
    each (WritePacket P) pks c
    = Ret (map (fun _ => None) pks)
        (with_bufferedSend
           (bufferedSend c ++ map (fun pk => hdr pk ++ Marshal P pk) pks) c).
Proof.
  induction pks as [|pk pks IH]; intros Hh c.
  - cbn [each map]. unfold ret. rewrite app_nil_r.
    destruct c; reflexivity.
  - cbn [each map]. unfold bind at 1.
    rewrite (WritePacket_ok P pk (hdr pk)) by (apply Hh; left; reflexivity).
    unfold bind at 1. rewrite IH by (intros; apply Hh; right; assumption).
    unfold ret. fields. rewrite <- app_assoc. reflexivity.
Qed.

(** X1.  Packets written one after the other are buffered in the order of
    the calls and do not reach the transport; the next flush of an open
    connection hands the transport one batch, the frames that were buffered
    before followed by the new ones in that order, and empties the
    buffer. *)
Theorem writes_flush_in_order hdr pks c :
  (forall pk, In pk pks -> Header_Write P (ID P pk) = Ok (hdr pk)) ->
  pks <> [] ->
  closed (conn c) = false ->
  exists c1 c2,
    each (WritePacket P) pks c = Ret (map (fun _ => None) pks) c1 /\
    conn c1 = conn c /\
    bufferedSend c1
    = bufferedSend c ++ map (fun pk => hdr pk ++ Marshal P pk) pks /\
    Flush c1 = Ret None c2 /\
    bufferedSend c2 = [] /\
    written (conn c2)
    = written (conn c) ++
      [{| frames :=
            bufferedSend c ++ map (fun pk => hdr pk ++ Marshal P pk) pks;
          sealed := match packet.key (encoder c) with
                    | Some k => Some (k, packet.counter (encoder c))
                    | None => None
                    end |}].
Proof.
  intros Hh Hne Ho.
  eexists. eexists.
  split; [apply (each_WritePacket hdr pks Hh)|].
  split; [reflexivity|]. split; [reflexivity|].
  match goal with
  | |- Flush ?c1 = _ /\ _ =>
      assert (Ho1 : closed (conn c1) = false) by exact Ho;
      assert (Hb1 : bufferedSend c1 <> [])
  end.
  { fields. destruct pks; [congruence|].
    destruct (bufferedSend c); discriminate. }
  split; [apply Flush_open; assumption|].
  destruct (flushed_open _ Ho1) as (Hw & _ & _ & Hb & _).
  split; [exact Hb|]. exact Hw.
Qed.

(** What a flush does to the buffer and what it leaves alone. *)
Lemma Flush_buffer c e c' :
  Flush c = Ret e c' ->
  (e = None -> bufferedSend c' = []) /\
  (e <> None -> bufferedSend c' = bufferedSend c) /\
  expectedID c' = expectedID c /\
  loggedIn c' = loggedIn c /\
  packQueue c' = packQueue c /\
  packets c' = packets c /\
  close c' = close c.
Proof.
  unfold Flush. run.
  destruct (bufferedSend c) as [|f fs] eqn:E.
  - intros [= <- <-]. repeat split; auto; congruence.
  - destruct (Encode _ _ _) as [[[e1|] enc] t]; run; intros [= <- <-]; fields;
      repeat split; auto; congruence.
Qed.

(** X2.  A flush empties the buffer exactly when it succeeds: when it
    returns an error every buffered frame is still in the buffer, in
    order, for the next flush.  Either way the login state is as it
    was. *)
Theorem Flush_keeps_frames_on_error c e c' :
  Flush c = Ret e c' ->
  (e = None -> bufferedSend c' = []) /\
  (e <> None -> bufferedSend c' = bufferedSend c) /\
  expectedID c' = expectedID c /\
  loggedIn c' = loggedIn c /\
  packQueue c' = packQueue c /\
  packets c' = packets c /\
  close c' = close c.
Proof. apply Flush_buffer. Qed.

End SendBuffer.

Lemma writes_flush_in_order_witness :
  exists c1 c2,
    each (WritePacket Toy.packages)
      [packet.PlayStatus 0; packet.ClientToServerHandshake] Toy.fresh
    = Ret [None; None] c1 /\
    conn c1 = conn Toy.fresh /\
    bufferedSend c1 = [[Byte.x02; Byte.x00]; [Byte.x04]] /\
    Flush c1 = Ret None c2 /\
    bufferedSend c2 = [] /\
    written (conn c2)
    = [{| frames := [[Byte.x02; Byte.x00]; [Byte.x04]]; sealed := None |}].
Proof.
  apply (writes_flush_in_order Toy.packages
           (fun pk => [byte_of_Z (ID Toy.packages pk)])
           [packet.PlayStatus 0; packet.ClientToServerHandshake] Toy.fresh).
  - intros pk _. reflexivity.
  - discriminate.
  - reflexivity.
Defined.

Lemma Flush_keeps_frames_on_error_witness :
  (Some (Errorf "error encoding packet batch: %v" [VErr ErrClosedNetConn])
   = None -> [[Byte.x01]] = []) /\
  (Some (Errorf "error encoding packet batch: %v" [VErr ErrClosedNetConn])
   <> None ->
   [[Byte.x01]] = [[Byte.x01]]) /\
  expectedID Toy.fresh = expectedID Toy.fresh /\
  loggedIn Toy.fresh = loggedIn Toy.fresh /\
  packQueue Toy.fresh = packQueue Toy.fresh /\
  packets Toy.fresh = packets Toy.fresh /\
  close Toy.fresh = close Toy.fresh.
Proof.
  apply (Flush_keeps_frames_on_error
           (with_bufferedSend [[Byte.x01]]
              (with_conn
                 {| written := []; closed := true; closeCalls := 1;
                    localAddr := "server"; remoteAddr := "client" |}
                 Toy.fresh))
           (Some (Errorf "error encoding packet batch: %v"
                    [VErr ErrClosedNetConn]))
           (with_bufferedSend [[Byte.x01]]
              (with_conn
                 {| written := []; closed := true; closeCalls := 1;
                    localAddr := "server"; remoteAddr := "client" |}
                 Toy.fresh))).
  reflexivity.
Defined.

(** ** Reading: the copy, the deadline and the close signal *)

Section Readers.

Context (P : Packages).

(** [Read] into a buffer that holds the frame. *)
Lemma Read_fits now data rest b c :
  packets c = data :: rest ->
  (List.length data <= List.length b)%nat ->
  exists b',
    Read now CasePackets b c
    = Ret (b', Z.of_nat (List.length data), None) (with_packets rest c) /\
    List.length b' = List.length b /\
    firstn (List.length data) b' = data /\
    skipn (List.length data) b' = skipn (List.length data) b.
Proof.
  intros Hq Hlen. unfold Read. run. rewrite Hq. run.
  replace (List.length b <? List.length data)%nat with false
    by (symmetry; apply Nat.ltb_ge; exact Hlen).
  eexists. split; [reflexivity|].
  split; [rewrite length_app, length_skipn; lia|].
  split; [apply firstn_length_app|].
  rewrite skipn_app, skipn_all, Nat.sub_diag. reflexivity.
Qed.

(** X3.  When the buffer is long enough, [Read] takes the frame off the
    queue and copies it to the front of the buffer: the count is the length
    of the frame, the buffer keeps its length, and what lies behind the
    frame in the buffer is as it was. *)
Theorem Read_copies_frame now data rest b c :
  packets c = data :: rest ->
  (List.length data <= List.length b)%nat ->
  exists b',
    Read now CasePackets b c
    = Ret (b', Z.of_nat (List.length data), None) (with_packets rest c) /\
    List.length b' = List.length b /\
    firstn (List.length data) b' = data /\
    skipn (List.length data) b' = skipn (List.length data) b.
Proof. apply Read_fits. Qed.

Lemma ReadPacket_close_signal now c :
  close c = 1%nat ->
  ReadPacket P now CaseClose c
  = Ret (None, Some (Errorf "error reading packet: connection closed" [])) c.
Proof.
  intros H. unfold ReadPacket, close_recv, close_send. run.
  rewrite H. run. cbn [Nat.ltb Nat.leb]. run.
  f_equal. destruct c; cbn in *; subst; reflexivity.
Qed.

Lemma Read_close_signal now b c :
  close c = 1%nat ->
  Read now CaseClose b c
  = Ret (b, 0, Some (Errorf "error reading packet: connection closed" [])) c.
Proof.
  intros H. unfold Read, close_recv, close_send. run.
  rewrite H. run. cbn [Nat.ltb Nat.leb]. run.
  f_equal. destruct c; cbn in *; subst; reflexivity.
Qed.

Lemma Close_sets_signal c e c' :
  close c = 0%nat -> Close c = Ret e c' -> close c' = 1%nat.
Proof.
  intros H0. unfold Close. run. rewrite H0. cbn [Nat.eqb negb].
  destruct (Flush c) as [e1 c1| |] eqn:EF; try discriminate.
  destruct (Flush_buffer c e1 c1 EF)
    as (_ & _ & _ & _ & _ & _ & Hc).
  unfold close_send, NetConn_Close. run. rewrite Hc, H0.
  cbn [Nat.ltb Nat.leb]. run.
  intros [= _ <-]. reflexivity.
Qed.

(** X4.  After [Close], a reader that picks the close signal gets the
    error of a closed connection and puts the signal back: the connection
    is as [Close] left it, so every later [ReadPacket] and [Read] can see
    the signal again. *)
Theorem readers_see_close now b c e c' :
  close c = 0%nat ->
  Close c = Ret e c' ->
  ReadPacket P now CaseClose c'
  = Ret (None, Some (Errorf "error reading packet: connection closed" [])) c' /\
  Read now CaseClose b c'
  = Ret (b, 0, Some (Errorf "error reading packet: connection closed" [])) c'.
Proof.
  intros H0 HC.
  pose proof (Close_sets_signal c e c' H0 HC) as H1.
  split; [apply ReadPacket_close_signal | apply Read_close_signal]; exact H1.
Qed.

(** X5.  A deadline [t] that is not in the past arms a one-shot timer: a
    reader that waits on the deadline blocks before [t]; from [t] on it
    gets the timeout error once, the queue being left alone, and after that
    the deadline never fires again until a new one is set. *)
Theorem deadline_fires_once now now' t n b c :
  now <= t ->
  t <> Time.zero ->
  Time.minDuration <= t - now' <= Time.maxDuration ->
  exists c1,
    SetReadDeadline now now' t c = Ret None c1 /\
    (n < t ->
     ReadPacket P n CaseReadDeadline c1 = Block /\
     Read n CaseReadDeadline b c1 = Block) /\
    (t <= n ->
     exists c2,
       ReadPacket P n CaseReadDeadline c1
       = Ret (None, Some (Errorf "error reading packet: read timeout" [])) c2 /\
       Read n CaseReadDeadline b c1
       = Ret (b, 0, Some (Errorf "error reading packet: read timeout" [])) c2 /\
       packets c2 = packets c /\
       forall n',
         ReadPacket P n' CaseReadDeadline c2 = Block /\
         Read n' CaseReadDeadline b c2 = Block).
Proof.
  intros Hnow Hz Hd.
  rewrite (SetReadDeadline_future now now' t c Hnow Hz Hd).
  eexists. split; [reflexivity|].
  unfold ReadPacket, Read. run. cbn [Time.ready].
  split.
  - intros Hlt. apply Z.leb_gt in Hlt. rewrite Hlt. split; reflexivity.
  - intros Hle. apply Z.leb_le in Hle. rewrite Hle. run.
    eexists. split; [reflexivity|]. split; [reflexivity|].
    split; [reflexivity|].
    intros n'. split; reflexivity.
Qed.

End Readers.

Lemma Read_copies_frame_witness :
  exists b',
    Read 0 CasePackets [Byte.x00; Byte.x00; Byte.x00]
      (with_packets [[Byte.x01; Byte.x02]; [Byte.x03]] Toy.fresh)
    = Ret (b', 2, None) (with_packets [[Byte.x03]] Toy.fresh) /\
    List.length b' = 3%nat /\
    firstn 2 b' = [Byte.x01; Byte.x02] /\
    skipn 2 b' = [Byte.x00].
Proof.
  apply (Read_copies_frame 0 [Byte.x01; Byte.x02] [[Byte.x03]]
           [Byte.x00; Byte.x00; Byte.x00]
           (with_packets [[Byte.x01; Byte.x02]; [Byte.x03]] Toy.fresh)).
  - reflexivity.
  - cbn. lia.
Defined.

Lemma readers_see_close_witness :
  ReadPacket Toy.packages 0 CaseClose
    (with_close 1 (with_conn
       {| written := []; closed := true; closeCalls := 1;
          localAddr := "server"; remoteAddr := "client" |} Toy.fresh))
  = Ret (None, Some (Errorf "error reading packet: connection closed" []))
      (with_close 1 (with_conn
         {| written := []; closed := true; closeCalls := 1;
            localAddr := "server"; remoteAddr := "client" |} Toy.fresh)) /\
  Read 0 CaseClose [Byte.x00]
    (with_close 1 (with_conn
       {| written := []; closed := true; closeCalls := 1;
          localAddr := "server"; remoteAddr := "client" |} Toy.fresh))
  = Ret ([Byte.x00], 0,
         Some (Errorf "error reading packet: connection closed" []))
      (with_close 1 (with_conn
         {| written := []; closed := true; closeCalls := 1;
            localAddr := "server"; remoteAddr := "client" |} Toy.fresh)).
Proof.
  apply (readers_see_close Toy.packages 0 [Byte.x00] Toy.fresh None).
  - reflexivity.
  - reflexivity.
Defined.

Lemma deadline_fires_once_witness :
  exists c1,
    SetReadDeadline 10 11 20 Toy.fresh = Ret None c1 /\
    (25 < 20 ->
     ReadPacket Toy.packages 25 CaseReadDeadline c1 = Block /\
     Read 25 CaseReadDeadline [] c1 = Block) /\
    (20 <= 25 ->
     exists c2,
       ReadPacket Toy.packages 25 CaseReadDeadline c1
       = Ret (None, Some (Errorf "error reading packet: read timeout" [])) c2 /\
       Read 25 CaseReadDeadline [] c1
       = Ret ([], 0, Some (Errorf "error reading packet: read timeout" [])) c2 /\
       packets c2 = packets Toy.fresh /\
       forall n',
         ReadPacket Toy.packages n' CaseReadDeadline c2 = Block /\
         Read n' CaseReadDeadline [] c2 = Block).
Proof.
  apply (deadline_fires_once Toy.packages 10 11 20 25 [] Toy.fresh).
  - lia.
  - discriminate.
  - unfold Time.minDuration, Time.maxDuration. lia.
Defined.

Lemma Close_twice_witness :
  Close (with_close 1 (with_conn
           {| written := []; closed := true; closeCalls := 1;
              localAddr := "server"; remoteAddr := "client" |} Toy.fresh))
  = Ret None
      (with_close 1 (with_conn
         {| written := []; closed := true; closeCalls := 1;
            localAddr := "server"; remoteAddr := "client" |} Toy.fresh)).
Proof.
  apply (Close_twice Toy.fresh None).
  - reflexivity.
  - reflexivity.
Defined.

(** ** The flush worker *)

(** X7.  When the worker is alone with a closed connection it stops: it
    receives the close signal, sends it again and returns, and the
    connection is as [Close] left it, the signal still in the channel.
    Once it has returned it takes no step. *)
Theorem worker_stops_on_close pick pick' c e c' :
  close c = 0%nat ->
  Close c = Ret e c' ->
  exists c1,
    worker_step CaseCloseSignal AtSelect c' = Ret AtResend c1 /\
    close c1 = 0%nat /\
    worker_step pick AtResend c1 = Ret Returned c' /\
    worker_step pick' Returned c' = Block.
Proof.
  intros H0 HC.
  pose proof (Close_sets_signal c e c' H0 HC) as H1.
  unfold worker_step, close_recv, close_send. run. rewrite H1.
  eexists. split; [reflexivity|]. fields.
  split; [reflexivity|]. cbn [Nat.ltb Nat.leb]. run.
  split; [|reflexivity].
  f_equal. destruct c'; cbn in *; subst; reflexivity.
Qed.

Lemma worker_stops_on_close_witness :
  exists c1,
    worker_step CaseCloseSignal AtSelect
      (with_close 1 (with_conn
         {| written := []; closed := true; closeCalls := 1;
            localAddr := "server"; remoteAddr := "client" |} Toy.fresh))
    = Ret AtResend c1 /\
    close c1 = 0%nat /\
    worker_step CaseTick AtResend c1
    = Ret Returned
        (with_close 1 (with_conn
           {| written := []; closed := true; closeCalls := 1;
              localAddr := "server"; remoteAddr := "client" |} Toy.fresh)) /\
    worker_step CaseTick Returned
      (with_close 1 (with_conn
         {| written := []; closed := true; closeCalls := 1;
            localAddr := "server"; remoteAddr := "client" |} Toy.fresh))
    = Block.
Proof.
  apply (worker_stops_on_close CaseTick CaseTick Toy.fresh None).
  - reflexivity.
  - reflexivity.
Defined.

(** X8.  A tick of the worker is one flush: the connection after the tick
    is the one [Flush] leaves, so what reaches the transport is what
    [Flush] writes.  The worker goes on waiting exactly when the flush
    returns nil, the buffer being empty then, and returns for good, with
    the frames still buffered, when the flush fails. *)
Theorem worker_tick_flushes c w c' :
  worker_step CaseTick AtSelect c = Ret w c' ->
  exists e,
    Flush c = Ret e c' /\
    ((e = None /\ w = AtSelect /\ bufferedSend c' = []) \/
     (e <> None /\ w = Returned /\ bufferedSend c' = bufferedSend c /\
      bufferedSend c <> [])).
Proof.
  unfold worker_step. run.
  destruct (Flush c) as [e c1| |] eqn:EF; try discriminate.
  destruct (Flush_buffer c e c1 EF) as (Hok & Herr & _).
  destruct e as [e|]; run; intros [= <- <-].
  - eexists. split; [reflexivity|].
    right. split; [discriminate|]. split; [reflexivity|].
    split; [apply Herr; discriminate|].
    intros Hnil. rewrite (Flush_empty c Hnil) in EF. discriminate.
  - exists None. split; [reflexivity|].
    left. split; [reflexivity|]. split; [reflexivity|].
    apply Hok. reflexivity.
Qed.

Lemma worker_tick_flushes_witness :
  exists e,
    Flush (with_bufferedSend [[Byte.x01]] Toy.fresh)
    = Ret e (flushed (with_bufferedSend [[Byte.x01]] Toy.fresh)) /\
    ((e = None /\ AtSelect = AtSelect /\
      bufferedSend
        (flushed (with_bufferedSend [[Byte.x01]] Toy.fresh)) = []) \/
     (e <> None /\ AtSelect = Returned /\
      bufferedSend (flushed (with_bufferedSend [[Byte.x01]] Toy.fresh))
      = bufferedSend (with_bufferedSend [[Byte.x01]] Toy.fresh) /\
      bufferedSend (with_bufferedSend [[Byte.x01]] Toy.fresh) <> [])).
Proof.
  apply (worker_tick_flushes (with_bufferedSend [[Byte.x01]] Toy.fresh)
           AtSelect (flushed (with_bufferedSend [[Byte.x01]] Toy.fresh))).
  reflexivity.
Defined.

(** ** The inbound queue once the login is over *)

Section Inbound.

Context (P : Packages).

Lemma handleIncoming_loggedIn now pick data c :
  loggedIn c = true ->
  (List.length (packets c) < 32)%nat ->
  handleIncoming P now pick data c
  = Ret None (with_packets (packets c ++ [data]) c).
Proof.
  intros Hl Hn. unfold handleIncoming, packets_send. run.
  apply Nat.ltb_lt in Hn. rewrite Hn. run. rewrite Hl. reflexivity.
Qed.

Lemma each_handleIncoming now pick ds :
  forall c,
    loggedIn c = true ->
    (List.length (packets c) + List.length ds <= 32)%nat ->
    each (handleIncoming P now pick) ds c
    = Ret (map (fun _ => None) ds) (with_packets (packets c ++ ds) c).
Proof.
  induction ds as [|d ds IH]; intros c Hl Hn.
  - cbn [each map]. unfold ret. rewrite app_nil_r. destruct c; reflexivity.
  - cbn [each map]. cbn [List.length] in Hn. unfold bind at 1.
    rewrite handleIncoming_loggedIn by (try assumption; lia).
    unfold bind at 1. rewrite IH.
    + unfold ret. fields. rewrite <- app_assoc. reflexivity.
    + exact Hl.
    + fields. rewrite length_app. cbn [List.length]. lia.
Qed.

Lemma each_Read now ds :
  forall rest c,
    packets c = ds ++ rest ->
    each (fun d => Read now CasePackets (repeat Byte.x00 (List.length d))) ds c
    = Ret (map (fun d => (d, Z.of_nat (List.length d), None)) ds)
        (with_packets rest c).
Proof.
  induction ds as [|d ds IH]; intros rest c Hq.
  - cbn [each map]. unfold ret. cbn [app] in Hq. rewrite <- Hq.
    destruct c; reflexivity.
  - cbn [each map]. unfold bind at 1.
    destruct (Read_fits now d (ds ++ rest)
                (repeat Byte.x00 (List.length d)) c Hq)
      as (b' & HR & Hlen & Hfst & _).
    { rewrite repeat_length. lia. }
    rewrite HR. unfold bind at 1.
    rewrite (IH rest) by reflexivity.
    unfold ret. fields.
    assert (Hb : b' = d).
    { rewrite <- Hfst. symmetry. apply firstn_all2.
      rewrite Hlen, repeat_length. lia. }
    rewrite Hb. reflexivity.
Qed.

(** X9.  Once the connection is logged in, [handleIncoming] only queues the
    frame, whichever case a [select] would pick: frames that arrive one
    after the other, as long as the queue holds them, leave the rest of the
    connection alone and come out of [Read] in the order they arrived, byte
    for byte, after which the connection is as before. *)
Theorem inbound_frames_in_order now pick ds c :
  loggedIn c = true ->
  packets c = [] ->
  (List.length ds <= 32)%nat ->
  exists c1,
    each (handleIncoming P now pick) ds c = Ret (map (fun _ => None) ds) c1 /\
    c1 = with_packets ds c /\
    each (fun d => Read now CasePackets (repeat Byte.x00 (List.length d))) ds c1
    = Ret (map (fun d => (d, Z.of_nat (List.length d), None)) ds) c.
Proof.
  intros Hl Hq Hn.
  exists (with_packets ds c).
  split.
  - rewrite each_handleIncoming by (try assumption; rewrite Hq; cbn; lia).
    rewrite Hq. reflexivity.
  - split; [reflexivity|].
    rewrite (each_Read now ds []) by (fields; rewrite app_nil_r; reflexivity).
    f_equal. destruct c; cbn in *; subst; reflexivity.
Qed.

(** X10.  The queue holds 32 frames: with 32 frames waiting,
    [handleIncoming] blocks on its send, logged in or not, and the frame is
    neither queued nor handled. *)
Theorem handleIncoming_blocks_when_full now pick data c :
  (32 <= List.length (packets c))%nat ->
  handleIncoming P now pick data c = Block.
Proof.
  intros Hn. unfold handleIncoming, packets_send. run.
  apply Nat.ltb_ge in Hn. rewrite Hn. reflexivity.
Qed.

End Inbound.

Lemma inbound_frames_in_order_witness :
  exists c1,
    each (handleIncoming Toy.packages 0 CaseClose)
      [[Byte.x09; Byte.x01]; [Byte.x0a]] (with_loggedIn true Toy.fresh)
    = Ret [None; None] c1 /\
    c1 = with_packets [[Byte.x09; Byte.x01]; [Byte.x0a]]
           (with_loggedIn true Toy.fresh) /\
    each (fun d => Read 0 CasePackets (repeat Byte.x00 (List.length d)))
      [[Byte.x09; Byte.x01]; [Byte.x0a]] c1
    = Ret [([Byte.x09; Byte.x01], 2, None); ([Byte.x0a], 1, None)]
        (with_loggedIn true Toy.fresh).
Proof.
  apply (inbound_frames_in_order Toy.packages 0 CaseClose
           [[Byte.x09; Byte.x01]; [Byte.x0a]] (with_loggedIn true Toy.fresh)).
  - reflexivity.
  - reflexivity.
  - cbn. lia.
Defined.

Lemma handleIncoming_blocks_when_full_witness :
  handleIncoming Toy.packages 0 CasePackets [Byte.x01]
    (with_packets (repeat [Byte.x09] 32) Toy.fresh) = Block.
Proof.
  apply (handleIncoming_blocks_when_full Toy.packages 0 CasePackets
           [Byte.x01] (with_packets (repeat [Byte.x09] 32) Toy.fresh)).
  cbn. lia.
Defined.

(** ** The login: all or nothing *)

Section LoginOutcome.

Context (P : Packages).

Lemma EnableEncryption_on kb cd :
  packet.key (packet.EnableEncryption kb cd) <> None.
Proof.
  unfold packet.EnableEncryption.
  destruct (packet.key cd) eqn:K; cbn [packet.key]; congruence.
Qed.

(** The two ways [enableEncryption] returns. *)
Lemma enableEncryption_outcome clientKey c r c' :
  enableEncryption P clientKey c = Ret r c' ->
  (r <> None -> c' = c) /\
  (r = None ->
   packet.key (encoder c') <> None /\
   packet.key (decoder c') <> None /\
   expectedID c' = expectedID c /\
   loggedIn c' = loggedIn c /\
   close c' = close c).
Proof.
  unfold enableEncryption, MarshalPublicKey. run.
  destruct (MarshalPKIXPublicKey P _) as [der|e0];
    [|intros [= <- <-]; split; [reflexivity|discriminate]].
  destruct (jwt_New P _ _ _) as [serverJWT|e0];
    [|intros [= <- <-]; split; [reflexivity|discriminate]].
  destruct (Header_Write P (IDServerToClientHandshake P)) as [h|e0] eqn:Hh;
    [rewrite (WritePacket_ok P _ h) by exact Hh; run
    |unfold WritePacket; cbn [ID]; rewrite Hh; run;
     intros [= <- <-]; split; [reflexivity|discriminate]].
  match goal with
  | |- context [Flush ?c1] =>
      destruct (Flush c1) as [e1 c2| |] eqn:EF; try discriminate;
      destruct (Flush_buffer c1 e1 c2 EF)
        as (_ & _ & He & Hl & _ & _ & Hc)
  end.
  destruct (elliptic.ScalarMult _ _ _ _) as [x y]. run.
  intros [= <- <-]. split; [congruence|]. intros _. fields.
  split; [apply EnableEncryption_on|].
  split; [apply EnableEncryption_on|].
  repeat split; assumption.
Qed.

(** X11.  The encryption handshake is all or nothing.  When
    [enableEncryption] returns an error the connection is exactly as it
    was: nothing is buffered or sent and the codec is untouched.  When it
    returns nil both halves of the codec are in encrypted mode, whether the
    flush of the handshake packet went through or not, and the expected ID
    and the logged-in flag are as they were. *)
Theorem enableEncryption_all_or_nothing clientKey c r c' :
  enableEncryption P clientKey c = Ret r c' ->
  (r <> None -> c' = c) /\
  (r = None ->
   packet.key (encoder c') <> None /\
   packet.key (decoder c') <> None /\
   expectedID c' = expectedID c /\
   loggedIn c' = loggedIn c /\
   close c' = close c).
Proof. apply enableEncryption_outcome. Qed.

(** X12.  A Login with the current protocol that fails a check (the chain
    does not verify, the client is not authenticated, the request does not
    decode, the identity or the client data is invalid) returns an error
    and does nothing else than move the expected ID on: no packet is
    buffered or sent, the codec stays as it is and the connection is not
    closed. *)
Theorem rejected_login_writes_nothing cp req c :
  cp = CurrentProtocol P ->
  (exists e, Verify P req = Err e) \/
  (exists k, Verify P req = Ok (k, false)) \/
  (exists k e, Verify P req = Ok (k, true) /\ Decode P req = Err e) \/
  (exists k i d,
     Verify P req = Ok (k, true) /\ Decode P req = Ok (i, d) /\
     (IdentityData_Validate P i <> None \/ ClientData_Validate P d <> None)) ->
  exists e,
    handleLogin P cp req c
    = Ret (Some e) (with_expectedID (IDClientToServerHandshake P) c).
Proof.
  intros Hcp Hbad. unfold handleLogin. run.
  subst cp. rewrite Z.eqb_refl. cbn [negb].
  destruct Hbad as [(e & Hv) | [(k & Hv) | [(k & e & Hv & Hd)
                   | (k & i & d & Hv & Hd & Hval)]]];
    rewrite Hv; cbn [negb]; run.
  - eexists. reflexivity.
  - unfold RemoteAddr. run. eexists. reflexivity.
  - rewrite Hd. eexists. reflexivity.
  - rewrite Hd.
    destruct (IdentityData_Validate P i) as [e|]; [eexists; reflexivity|].
    destruct (ClientData_Validate P d) as [e|]; [eexists; reflexivity|].
    destruct Hval; congruence.
Qed.

(** X13.  A Login with the current protocol for which [handleLogin] returns
    nil has passed the verification as an authenticated client, and leaves
    the connection with both halves of the codec in encrypted mode,
    expecting the ClientToServerHandshake. *)
Theorem accepted_login_is_encrypted cp req c c' :
  cp = CurrentProtocol P ->
  handleLogin P cp req c = Ret None c' ->
  (exists k, Verify P req = Ok (k, true)) /\
  packet.key (encoder c') <> None /\
  packet.key (decoder c') <> None /\
  expectedID c' = IDClientToServerHandshake P /\
  loggedIn c' = loggedIn c.
Proof.
  intros Hcp. unfold handleLogin. run.
  subst cp. rewrite Z.eqb_refl. cbn [negb].
  destruct (Verify P req) as [[k [|]]|e]; cbn [negb]; run;
    [|unfold RemoteAddr; run; intros Hbad; discriminate Hbad
     |intros Hbad; discriminate Hbad].
  destruct (Decode P req) as [[i d]|e];
    [|intros Hbad; discriminate Hbad].
  destruct (IdentityData_Validate P i) as [e|];
    [intros Hbad; discriminate Hbad|].
  destruct (ClientData_Validate P d) as [e|];
    [intros Hbad; discriminate Hbad|].
  run.
  match goal with
  | |- context [enableEncryption P k ?c1] =>
      destruct (enableEncryption P k c1) as [r c2| |] eqn:EE;
        [|intros Hbad; discriminate Hbad|intros Hbad; discriminate Hbad];
      destruct (enableEncryption_outcome k c1 r c2 EE) as [_ Hok]
  end.
  destruct r as [e|]; run; [intros Hbad; discriminate Hbad|].
  intros [= <-].
  destruct (Hok eq_refl) as (Hke & Hkd & He & Hl & _).
  split; [exists k; reflexivity|].
  repeat split; assumption.
Qed.

End LoginOutcome.

Lemma enableEncryption_all_or_nothing_witness :
  exists c',
    enableEncryption Toy.packages
      {| ecdsa.Curve := Toy.curve; ecdsa.X := 5; ecdsa.Y := 7 |} Toy.fresh
    = Ret None c' /\
    packet.key (encoder c') <> None /\
    packet.key (decoder c') <> None /\
    expectedID c' = expectedID Toy.fresh.
Proof.
  destruct (enableEncryption Toy.packages
              {| ecdsa.Curve := Toy.curve; ecdsa.X := 5; ecdsa.Y := 7 |}
              Toy.fresh) as [r c'| |] eqn:E;
    [|vm_compute in E; discriminate E|vm_compute in E; discriminate E].
  destruct (enableEncryption_all_or_nothing Toy.packages _ _ _ _ E)
    as [_ Hok].
  assert (Hr : r = None).
  { vm_compute in E. injection E as Hr _. symmetry. exact Hr. }
  destruct (Hok Hr) as (Hke & Hkd & He & _).
  exists c'. subst r. repeat split; assumption.
Defined.

Lemma rejected_login_writes_nothing_witness :
  exists e,
    handleLogin Toy.packages 100 [Byte.x00] Toy.fresh
    = Ret (Some e) (with_expectedID 4 Toy.fresh).
Proof.
  apply (rejected_login_writes_nothing Toy.packages 100 [Byte.x00] Toy.fresh).
  - reflexivity.
  - right. left.
    exists {| ecdsa.Curve := Toy.curve; ecdsa.X := 5; ecdsa.Y := 7 |}.
    reflexivity.
Defined.

Lemma accepted_login_is_encrypted_witness :
  exists c',
    handleLogin Toy.packages 100 [Byte.x01] Toy.fresh = Ret None c' /\
    (exists k, Verify Toy.packages [Byte.x01] = Ok (k, true)) /\
    packet.key (encoder c') <> None /\
    packet.key (decoder c') <> None /\
    expectedID c' = 4 /\
    loggedIn c' = false.
Proof.
  destruct (handleLogin Toy.packages 100 [Byte.x01] Toy.fresh)
    as [[e|] c'| |] eqn:E;
    try (vm_compute in E; discriminate E).
  exists c'. split; [reflexivity|].
  apply (accepted_login_is_encrypted Toy.packages 100 [Byte.x01] Toy.fresh c').
  - reflexivity.
  - exact E.
Defined.

(** ** The packs on offer *)

Section Offer.

Context (P : Packages).

Lemma packsInfo_acc l :
  forall hs bp tp,
    fold_left
      (fun (acc : bool * list packet.ResourcePack * list packet.ResourcePack)
           (pack : resource.Pack) =>
         let '(hasScripts, behaviour, texture) := acc in
         let resourcePack :=
           {| packet.UUID := resource.UUID pack;
              packet.Version := resource.Version pack;
              packet.Size := resource.Len pack;
              packet.HasScripts := resource.HasScripts pack |} in
         let hasScripts := hasScripts || resource.HasScripts pack in
         if resource.HasBehaviours pack
         then (hasScripts, behaviour ++ [resourcePack], texture)
         else (hasScripts, behaviour, texture ++ [resourcePack]))
      l (hs, bp, tp)
    = (hs || existsb resource.HasScripts l,
       bp ++ map (fun pack =>
                    {| packet.UUID := resource.UUID pack;
                       packet.Version := resource.Version pack;
                       packet.Size := resource.Len pack;
                       packet.HasScripts := resource.HasScripts pack |})
               (filter resource.HasBehaviours l),
       tp ++ map (fun pack =>
                    {| packet.UUID := resource.UUID pack;
                       packet.Version := resource.Version pack;
                       packet.Size := resource.Len pack;
                       packet.HasScripts := resource.HasScripts pack |})
               (filter (fun pack => negb (resource.HasBehaviours pack)) l)).
Proof.
  induction l as [|pack l IH]; intros hs bp tp.
  - cbn. rewrite orb_false_r, !app_nil_r. reflexivity.
  - cbn [fold_left existsb filter].
    destruct (resource.HasBehaviours pack); cbn [negb map];
      rewrite IH, orb_assoc, <- ?app_assoc; reflexivity.
Qed.

Lemma packsStack_acc l :
  forall bp tp,
    fold_left
      (fun (acc : list packet.ResourcePack * list packet.ResourcePack)
           (pack : resource.Pack) =>
         let '(behaviour, texture) := acc in
         let resourcePack :=
           {| packet.UUID := resource.UUID pack;
              packet.Version := resource.Version pack;
              packet.Size := 0;
              packet.HasScripts := false |} in
         if resource.HasBehaviours pack
         then (behaviour ++ [resourcePack], texture)
         else (behaviour, texture ++ [resourcePack]))
      l (bp, tp)
    = (bp ++ map (fun pack =>
                    {| packet.UUID := resource.UUID pack;
                       packet.Version := resource.Version pack;
                       packet.Size := 0;
                       packet.HasScripts := false |})
               (filter resource.HasBehaviours l),
       tp ++ map (fun pack =>
                    {| packet.UUID := resource.UUID pack;
                       packet.Version := resource.Version pack;
                       packet.Size := 0;
                       packet.HasScripts := false |})
               (filter (fun pack => negb (resource.HasBehaviours pack)) l)).
Proof.
  induction l as [|pack l IH]; intros bp tp.
  - cbn. rewrite !app_nil_r. reflexivity.
  - cbn [fold_left filter].
    destruct (resource.HasBehaviours pack); cbn [negb map];
      rewrite IH, <- ?app_assoc; reflexivity.
Qed.

(** X14.  The ResourcePacksInfo packet that answers the
    ClientToServerHandshake lists every pack on offer exactly once, with
    its UUID, version, size and scripts flag: the packs with behaviours in
    the behaviour list and the others in the texture list, each in the
    order of the offer; the packet says that there are scripts exactly when
    one pack has scripts.  It is buffered behind the PlayStatus packet and
    nothing is sent. *)
Theorem handshake_offers_every_pack h1 h2 c :
  Header_Write P (IDPlayStatus P) = Ok h1 ->
  Header_Write P (IDResourcePacksInfo P) = Ok h2 ->
  exists c',
    handleClientToServerHandshake P c = Ret None c' /\
    bufferedSend c'
    = bufferedSend c ++
      [h1 ++ Marshal P (packet.PlayStatus (PlayStatusLoginSuccess P));
       h2 ++ Marshal P
               (packet.ResourcePacksInfo (texturePacksRequired c)
                  (existsb resource.HasScripts (resourcePacks c))
                  (map (fun pack =>
                          {| packet.UUID := resource.UUID pack;
                             packet.Version := resource.Version pack;
                             packet.Size := resource.Len pack;
                             packet.HasScripts := resource.HasScripts pack |})
                     (filter resource.HasBehaviours (resourcePacks c)))
                  (map (fun pack =>
                          {| packet.UUID := resource.UUID pack;
                             packet.Version := resource.Version pack;
                             packet.Size := resource.Len pack;
                             packet.HasScripts := resource.HasScripts pack |})
                     (filter (fun pack => negb (resource.HasBehaviours pack))
                        (resourcePacks c))))] /\
    expectedID c' = IDResourcePackClientResponse P /\
    conn c' = conn c /\
    loggedIn c' = loggedIn c.
Proof.
  intros Hh1 Hh2.
  unfold handleClientToServerHandshake. run.
  rewrite (WritePacket_ok P _ h1) by exact Hh1. run.
  unfold packsInfo. rewrite packsInfo_acc. cbn [orb app].
  rewrite (WritePacket_ok P _ h2) by exact Hh2. run.
  eexists. split; [reflexivity|]. fields.
  split; [rewrite <- app_assoc; reflexivity|].
  repeat split.
Qed.

(** X15.  A response AllPacksDownloaded is answered with a
    ResourcePackStack packet that lists every pack on offer exactly once by
    UUID and version, behaviour packs and texture packs apart, in the order
    of the offer; the packet is buffered, and the connection goes on
    expecting a ResourcePackClientResponse, not logged in yet. *)
Theorem all_packs_downloaded_sends_stack ids h c :
  PackResponseAllPacksDownloaded P <> PackResponseRefused P ->
  PackResponseAllPacksDownloaded P <> PackResponseSendPacks P ->
  Header_Write P (IDResourcePackStack P) = Ok h ->
  exists c',
    handleResourcePackClientResponse P (PackResponseAllPacksDownloaded P) ids c
    = Ret None c' /\
    bufferedSend c'
    = bufferedSend c ++
      [h ++ Marshal P
              (packet.ResourcePackStack (texturePacksRequired c)
                 (map (fun pack =>
                         {| packet.UUID := resource.UUID pack;
                            packet.Version := resource.Version pack;
                            packet.Size := 0;
                            packet.HasScripts := false |})
                    (filter resource.HasBehaviours (resourcePacks c)))
                 (map (fun pack =>
                         {| packet.UUID := resource.UUID pack;
                            packet.Version := resource.Version pack;
                            packet.Size := 0;
                            packet.HasScripts := false |})
                    (filter (fun pack => negb (resource.HasBehaviours pack))
                       (resourcePacks c))))] /\
    expectedID c' = expectedID c /\
    loggedIn c' = loggedIn c /\
    packQueue c' = packQueue c /\
    conn c' = conn c.
Proof.
  intros Hr Hs Hh.
  unfold handleResourcePackClientResponse.
  apply Z.eqb_neq in Hr, Hs. rewrite Hr, Hs, Z.eqb_refl. run.
  unfold packsStack. rewrite packsStack_acc. cbn [app].
  rewrite (WritePacket_ok P _ h) by exact Hh. run.
  eexists. split; [reflexivity|]. fields. repeat split.
Qed.

(** X16.  A response that is none of Refused, SendPacks,
    AllPacksDownloaded and Completed returns an error that carries its
    value, and the connection is as it was. *)
Theorem unknown_response_rejected r ids c :
  r <> PackResponseRefused P ->
  r <> PackResponseSendPacks P ->
  r <> PackResponseAllPacksDownloaded P ->
  r <> PackResponseCompleted P ->
  handleResourcePackClientResponse P r ids c
  = Ret (Some (Errorf "unknown resource pack client response: %v" [VInt r])) c.
Proof.
  intros H1 H2 H3 H4.
  unfold handleResourcePackClientResponse.
  apply Z.eqb_neq in H1, H2, H3, H4. rewrite H1, H2, H3, H4. reflexivity.
Qed.

End Offer.

Lemma handshake_offers_every_pack_witness :
  exists c',
    handleClientToServerHandshake Toy.packages
      (Toy.offering [Toy.pack3; Toy.packB; Toy.pack3]) = Ret None c' /\
    bufferedSend c'
    = [[Byte.x02] ++ Marshal Toy.packages (packet.PlayStatus 0);
       [Byte.x06] ++
       Marshal Toy.packages
         (packet.ResourcePacksInfo true true
            [{| packet.UUID := "pB"; packet.Version := "2.0.0";
                packet.Size := 2; packet.HasScripts := true |}]
            [{| packet.UUID := "p3"; packet.Version := "1.0.0";
                packet.Size := 3; packet.HasScripts := false |};
             {| packet.UUID := "p3"; packet.Version := "1.0.0";
                packet.Size := 3; packet.HasScripts := false |}])] /\
    expectedID c' = 8 /\
    conn c' = Toy.transport /\
    loggedIn c' = false.
Proof.
  apply (handshake_offers_every_pack Toy.packages [Byte.x02] [Byte.x06]
           (Toy.offering [Toy.pack3; Toy.packB; Toy.pack3])).
  - reflexivity.
  - reflexivity.
Defined.

Lemma all_packs_downloaded_sends_stack_witness :
  exists c',
    handleResourcePackClientResponse Toy.packages 3 []
      (Toy.offering [Toy.pack3; Toy.packB]) = Ret None c' /\
    bufferedSend c'
    = [[Byte.x07] ++
       Marshal Toy.packages
         (packet.ResourcePackStack true
            [{| packet.UUID := "pB"; packet.Version := "2.0.0";
                packet.Size := 0; packet.HasScripts := false |}]
            [{| packet.UUID := "p3"; packet.Version := "1.0.0";
                packet.Size := 0; packet.HasScripts := false |}])] /\
    expectedID c' = 8 /\
    loggedIn c' = false /\
    packQueue c' = None /\
    conn c' = Toy.transport.
Proof.
  apply (all_packs_downloaded_sends_stack Toy.packages [] [Byte.x07]
           (Toy.offering [Toy.pack3; Toy.packB])).
  - cbn. lia.
  - cbn. lia.
  - reflexivity.
Defined.

Lemma unknown_response_rejected_witness :
  handleResourcePackClientResponse Toy.packages 9 [] Toy.fresh
  = Ret (Some (Errorf "unknown resource pack client response: %v" [VInt 9]))
      Toy.fresh.
Proof.
  apply (unknown_response_rejected Toy.packages 9 [] Toy.fresh);
    cbn; lia.
Defined.

(** ** The PlayStatus packet *)

Section PlayStatus.

Context (P : Packages).

(** X17.  [handlePlayStatus] returns nil for the statuses LoginSuccess and
    PlayerSpawn only, and then it leaves the connection as it was. *)
Theorem handlePlayStatus_nil s c c' :
  handlePlayStatus P s c = Ret None c' ->
  (s = PlayStatusLoginSuccess P \/ s = PlayStatusPlayerSpawn P) /\ c' = c.
Proof.
  unfold handlePlayStatus.
  repeat match goal with
         | |- context [?a =? ?b] =>
             destruct (Z.eqb_spec a b)
         end;
    run;
    try (intros H; discriminate H);
    try (destruct (Close c) as [? ?| |]; intros H; discriminate H);
    intros H; injection H as H; subst c'; split; auto.
Qed.


End PlayStatus.

Lemma handlePlayStatus_nil_witness :
  (3 = PlayStatusLoginSuccess Toy.packages \/
   3 = PlayStatusPlayerSpawn Toy.packages) /\
  Toy.fresh = Toy.fresh.
Proof.
  apply (handlePlayStatus_nil Toy.packages 3 Toy.fresh Toy.fresh).
  reflexivity.
Defined.


(** ** What the login sequence never touches *)

Section Stable.

Context (P : Packages).

Lemma stable_refl c : stable c c.
Proof. unfold stable. repeat split; auto. Qed.

Lemma stable_trans c1 c2 c3 : stable c1 c2 -> stable c2 c3 -> stable c1 c3.
Proof.
  unfold stable. intros (Hl & Hk & Hs & Hr & Ht) (Hl' & Hk' & Hs' & Hr' & Ht').
  repeat split; auto; congruence.
Qed.

Lemma keeps_ret {A} (a : A) : keeps (ret a).
Proof. intros c a' c' [= _ <-]. apply stable_refl. Qed.

Lemma keeps_get : keeps get.
Proof. intros c a' c' [= _ <-]. apply stable_refl. Qed.

Lemma keeps_block {A} : keeps (fun _ : Conn => @Block A).
Proof. intros c a c' H. discriminate H. Qed.

Lemma keeps_panic {A} : keeps (fun _ : Conn => @Panic A).
Proof. intros c a c' H. discriminate H. Qed.

Lemma keeps_modify f : (forall c, stable c (f c)) -> keeps (modify f).
Proof. intros Hf c a c' [= _ <-]. apply Hf. Qed.

Lemma keeps_bind {A B} (m : M A) (k : A -> M B) :
  keeps m -> (forall a, keeps (k a)) -> keeps (bind m k).
Proof.
  intros Hm Hk c b c'. unfold bind.
  destruct (m c) as [a c1| |] eqn:E; try discriminate.
  intros H. eapply stable_trans; [eapply Hm; eassumption|].
  eapply Hk; eassumption.
Qed.

Create HintDb keeps.

Ltac keeps_step :=
  first
    [ solve [auto with keeps nocore]
    | apply keeps_ret
    | apply keeps_get
    | apply keeps_block
    | apply keeps_panic
    | apply keeps_bind; [|intros ?]
    | apply keeps_modify; intro; unfold stable; fields; repeat split; auto
    | match goal with
      | |- keeps (match ?x with _ => _ end) => destruct x
      end ].

Ltac keeps_all := cbv zeta; repeat keeps_step.

Lemma Write_keeps b : keeps (Write b).
Proof. unfold Write. keeps_all. Qed.
Hint Resolve Write_keeps : keeps.

Lemma WritePacket_keeps pk : keeps (WritePacket P pk).
Proof. unfold WritePacket. keeps_all. Qed.
Hint Resolve WritePacket_keeps : keeps.

Lemma Flush_keeps : keeps Flush.
Proof. unfold Flush. keeps_all. Qed.
Hint Resolve Flush_keeps : keeps.

Lemma close_send_keeps : keeps close_send.
Proof.
  intros c a c'. unfold close_send.
  destruct (close c <? 1)%nat; [|discriminate].
  intros [= _ <-]. unfold stable. fields. repeat split; auto.
Qed.
Hint Resolve close_send_keeps : keeps.

Lemma close_recv_keeps : keeps close_recv.
Proof.
  intros c a c'. unfold close_recv.
  destruct (close c); [discriminate|].
  intros [= _ <-]. unfold stable. fields. repeat split; auto.
Qed.
Hint Resolve close_recv_keeps : keeps.

Lemma packets_send_keeps data : keeps (packets_send data).
Proof.
  intros c a c'. unfold packets_send.
  destruct (List.length (packets c) <? 32)%nat; [|discriminate].
  intros [= _ <-]. unfold stable. fields. repeat split; auto.
Qed.
Hint Resolve packets_send_keeps : keeps.

Lemma Close_keeps : keeps Close.
Proof. unfold Close. keeps_all. Qed.
Hint Resolve Close_keeps : keeps.

Lemma ReadPacket_keeps now pick : keeps (ReadPacket P now pick).
Proof. unfold ReadPacket. keeps_all. Qed.
Hint Resolve ReadPacket_keeps : keeps.

Lemma Read_keeps now pick b : keeps (Read now pick b).
Proof. unfold Read. keeps_all. Qed.

Lemma SetReadDeadline_keeps now now' t : keeps (SetReadDeadline now now' t).
Proof. unfold SetReadDeadline. keeps_all. Qed.

Lemma enableEncryption_keeps k : keeps (enableEncryption P k).
Proof. unfold enableEncryption. keeps_all. Qed.
Hint Resolve enableEncryption_keeps : keeps.

Lemma handleLogin_keeps cp req : keeps (handleLogin P cp req).
Proof. unfold handleLogin, RemoteAddr. keeps_all. Qed.
Hint Resolve handleLogin_keeps : keeps.

Lemma handleClientToServerHandshake_keeps :
  keeps (handleClientToServerHandshake P).
Proof. unfold handleClientToServerHandshake. keeps_all. Qed.
Hint Resolve handleClientToServerHandshake_keeps : keeps.

Lemma nextResourcePackDownload_keeps : keeps (nextResourcePackDownload P).
Proof. unfold nextResourcePackDownload. keeps_all. Qed.
Hint Resolve nextResourcePackDownload_keeps : keeps.

Lemma handleResourcePackClientResponse_keeps r ids :
  keeps (handleResourcePackClientResponse P r ids).
Proof. unfold handleResourcePackClientResponse. keeps_all. Qed.
Hint Resolve handleResourcePackClientResponse_keeps : keeps.

Lemma afterLastChunk_keeps : keeps (afterLastChunk P).
Proof. unfold afterLastChunk. keeps_all. Qed.
Hint Resolve afterLastChunk_keeps : keeps.

Lemma handleResourcePackChunkRequest_keeps uuid idx :
  keeps (handleResourcePackChunkRequest P uuid idx).
Proof. unfold handleResourcePackChunkRequest. keeps_all. Qed.
Hint Resolve handleResourcePackChunkRequest_keeps : keeps.

Lemma handlePlayStatus_keeps s : keeps (handlePlayStatus P s).
Proof. unfold handlePlayStatus. keeps_all. Qed.
Hint Resolve handlePlayStatus_keeps : keeps.

Lemma handleIncoming_keeps now pick data :
  keeps (handleIncoming P now pick data).
Proof. unfold handleIncoming. keeps_all. Qed.

(** X19.  Whatever frame arrives and whatever it leads to, [handleIncoming]
    never logs a connection out and never changes the key pair, the salt
    or the packs the listener offers. *)
Theorem handleIncoming_never_logs_out now pick data c r c' :
  handleIncoming P now pick data c = Ret r c' ->
  (loggedIn c = true -> loggedIn c' = true) /\
  privateKey c' = privateKey c /\
  salt c' = salt c /\
  resourcePacks c' = resourcePacks c /\
  texturePacksRequired c' = texturePacksRequired c.
Proof.
  intros H. exact (handleIncoming_keeps now pick data c r c' H).
Qed.

End Stable.

Lemma handleIncoming_never_logs_out_witness :
  (loggedIn (Toy.offering [Toy.pack3]) = true ->
   loggedIn (with_loggedIn true (with_packets [] (Toy.offering [Toy.pack3])))
   = true) /\
  privateKey (with_loggedIn true (with_packets [] (Toy.offering [Toy.pack3])))
  = Toy.key /\
  salt (with_loggedIn true (with_packets [] (Toy.offering [Toy.pack3])))
  = Toy.salt16 /\
  resourcePacks
    (with_loggedIn true (with_packets [] (Toy.offering [Toy.pack3])))
  = [Toy.pack3] /\
  texturePacksRequired
    (with_loggedIn true (with_packets [] (Toy.offering [Toy.pack3])))
  = true.
Proof.
  apply (handleIncoming_never_logs_out Toy.packages 0 CasePackets
           [Byte.x08; Byte.x04] (Toy.offering [Toy.pack3]) None
           (with_loggedIn true (with_packets [] (Toy.offering [Toy.pack3])))).
  reflexivity.
Defined.

(** ** The login sequence from the handshake on *)

Section Sequence.

Context (P : Packages).

(** X20.  The way through the login sequence of a client that has all the
    packs: on a connection that expects the ClientToServerHandshake, the
    three frames ClientToServerHandshake, ResourcePackClientResponse
    (AllPacksDownloaded) and ResourcePackClientResponse (Completed) are
    each handled without error; the connection ends logged in with an
    empty queue, having buffered the PlayStatus (LoginSuccess), the
    ResourcePacksInfo and the ResourcePackStack packets in this order, and
    the transport has not been written to. *)
Theorem login_sequence_completes now d1 d2 d3 ids2 ids3 h1 h2 h3 c :
  loggedIn c = false ->
  packets c = [] ->
  expectedID c = IDClientToServerHandshake P ->
  decodes P d1 packet.ClientToServerHandshake ->
  decodes P d2
    (packet.ResourcePackClientResponse (PackResponseAllPacksDownloaded P) ids2) ->
  decodes P d3
    (packet.ResourcePackClientResponse (PackResponseCompleted P) ids3) ->
  Header_Write P (IDPlayStatus P) = Ok h1 ->
  Header_Write P (IDResourcePacksInfo P) = Ok h2 ->
  Header_Write P (IDResourcePackStack P) = Ok h3 ->
  PackResponseAllPacksDownloaded P <> PackResponseRefused P ->
  PackResponseAllPacksDownloaded P <> PackResponseSendPacks P ->
  PackResponseCompleted P <> PackResponseRefused P ->
  PackResponseCompleted P <> PackResponseSendPacks P ->
  PackResponseCompleted P <> PackResponseAllPacksDownloaded P ->
  exists c',
    each (handleIncoming P now CasePackets) [d1; d2; d3] c
    = Ret [None; None; None] c' /\
    loggedIn c' = true /\
    packets c' = [] /\
    conn c' = conn c /\
    bufferedSend c'
    = bufferedSend c ++
      [h1 ++ Marshal P (packet.PlayStatus (PlayStatusLoginSuccess P));
       h2 ++ Marshal P
               (packet.ResourcePacksInfo (texturePacksRequired c)
                  (fst (fst (packsInfo (resourcePacks c))))
                  (snd (fst (packsInfo (resourcePacks c))))
                  (snd (packsInfo (resourcePacks c))));
       h3 ++ Marshal P
               (packet.ResourcePackStack (texturePacksRequired c)
                  (fst (packsStack (resourcePacks c)))
                  (snd (packsStack (resourcePacks c))))].
Proof.
  intros Hl Hp He Hd1 Hd2 Hd3 Hh1 Hh2 Hh3 Har Has Hcr Hcs Hca.
  apply Z.eqb_neq in Har, Has, Hcr, Hcs, Hca.
  cbn [each]. unfold bind at 1.
  assert (Hn : (List.length (packets c) < 32)%nat) by (rewrite Hp; cbn; lia).
  assert (Hq : packets c ++ [d1] = [d1]) by (rewrite Hp; reflexivity).
  rewrite (handleIncoming_decodes P now d1 d1 [] _ c Hl Hn Hq Hd1).
  cbn [ID]. rewrite He, Z.eqb_refl. cbn [negb].
  unfold handleClientToServerHandshake. run.
  rewrite (WritePacket_ok P _ h1) by exact Hh1. run.
  destruct (packsInfo (resourcePacks c)) as [[hs bp] tp].
  rewrite (WritePacket_ok P _ h2) by exact Hh2. run.
  rewrite (handleIncoming_decodes P now d2 d2 [] _ _)
    by (fields; first [exact Hd2 | exact Hl | reflexivity | cbn; lia]).
  fields. cbn [ID]. rewrite Z.eqb_refl. cbn [negb].
  unfold handleResourcePackClientResponse at 1. rewrite Har, Has, Z.eqb_refl.
  run.
  destruct (packsStack (resourcePacks c)) as [sb st].
  rewrite (WritePacket_ok P _ h3) by exact Hh3. run.
  rewrite (handleIncoming_decodes P now d3 d3 [] _ _)
    by (fields; first [exact Hd3 | exact Hl | reflexivity | cbn; lia]).
  fields. cbn [ID]. rewrite Z.eqb_refl. cbn [negb].
  unfold handleResourcePackClientResponse. rewrite Hcr, Hcs, Hca, Z.eqb_refl.
  run.
  eexists. split; [reflexivity|]. fields. cbn [fst snd].
  repeat split. rewrite <- !app_assoc. reflexivity.
Qed.

End Sequence.

Lemma login_sequence_completes_witness :
  exists c',
    each (handleIncoming Toy.packages 0 CasePackets)
      [[Byte.x04]; [Byte.x08; Byte.x03]; [Byte.x08; Byte.x04]]
      (with_expectedID 4 Toy.fresh)
    = Ret [None; None; None] c' /\
    loggedIn c' = true /\
    packets c' = [] /\
    conn c' = Toy.transport /\
    bufferedSend c' = [[Byte.x02; Byte.x00]; [Byte.x06]; [Byte.x07]].
Proof.
  apply (login_sequence_completes Toy.packages 0 [Byte.x04]
           [Byte.x08; Byte.x03] [Byte.x08; Byte.x04] [] []
           [Byte.x02] [Byte.x06] [Byte.x07] (with_expectedID 4 Toy.fresh)).
  - reflexivity.
  - reflexivity.
  - reflexivity.
  - exists 4, []. split; reflexivity.
  - exists 8, [Byte.x03]. split; reflexivity.
  - exists 8, [Byte.x04]. split; reflexivity.
  - reflexivity.
  - reflexivity.
  - reflexivity.
  - cbn; lia.
  - cbn; lia.
  - cbn; lia.
  - cbn; lia.
  - cbn; lia.
Defined.
